(** * demonicskull: the 56K modem throttle and the guestbook handlers

    A shallow embedding of [server.js].  JavaScript strings are sequences of
    UTF-16 code units, Buffers are lists of bytes, the response object is a
    record whose method slots ([write], [end], [redirect]) can be
    re-assigned, and the timers armed with [setTimeout] live in an explicit
    queue that a fuelled event loop drains while a virtual clock advances. *)

From Stdlib Require Import String Ascii ZArith NArith Lia Bool List.
From Stdlib Require Import Strings.Byte.
Import ListNotations.
Local Open Scope Z_scope.

(** ** JavaScript values *)

(** A JavaScript string: its UTF-16 code units. *)
Definition jsstring := list N.

(** An ASCII literal of the source as a JavaScript string. *)
Definition lit (s : string) : jsstring :=
  List.map N_of_ascii (list_ascii_of_string s).

Definition jsstring_eqb (a b : jsstring) : bool :=
  if list_eq_dec N.eq_dec a b then true else false.

(** The values that reach the code from the URL-encoded body parser, from
    the query string and from the entries file: an absent property, a
    string, an array of strings (a repeated key), or a plain object with no
    properties of its own, the [{}] that [JSON.stringify] makes of
    [Object.prototype]. *)
Inductive JsVal :=
| VUndef
| VStr (s : jsstring)
| VArr (l : list jsstring)
| VObj.

(** JavaScript truthiness: [undefined] and the empty string are falsy, every
    array and every object is truthy. *)
Definition truthy (v : JsVal) : bool :=
  match v with
  | VUndef => false
  | VStr [] => false
  | VStr (_ :: _) => true
  | VArr _ => true
  | VObj => true
  end.

(** [a || b] *)
Definition js_or (a b : JsVal) : JsVal := if truthy a then a else b.

(** [a === 'literal'] *)
Definition strict_eq_str (a : JsVal) (s : jsstring) : bool :=
  match a with
  | VStr x => jsstring_eqb x s
  | _ => false
  end.

(** Synchronous code either returns or throws a [TypeError]. *)
Inductive Result (A : Type) :=
| Ok (a : A)
| Throw.
Arguments Ok {A} a.
Arguments Throw {A}.

Definition bind {A B} (r : Result A) (k : A -> Result B) : Result B :=
  match r with
  | Ok a => k a
  | Throw => Throw
  end.

Notation "x <- r ;; k" := (bind r (fun x => k))
  (at level 61, r at next level, right associativity).

(** ** Buffers *)

Definition Buffer := list byte.

Definition blen (b : Buffer) : Z := Z.of_nat (length b).

(** [buf.slice(start, end)]: a negative index counts from the end, both
    indices are clamped to the buffer, and an inverted range is empty. *)
Definition norm_index (len i : Z) : Z :=
  if i <? 0 then Z.max (len + i) 0 else Z.min i len.

Definition slice (b : Buffer) (start stop : Z) : Buffer :=
  let s := norm_index (blen b) start in
  let e := norm_index (blen b) stop in
  firstn (Z.to_nat (e - s)) (skipn (Z.to_nat s) b).

(** [Buffer.concat(chunks)] *)
Definition Buffer_concat (chunks : list Buffer) : Buffer := List.concat chunks.

(** What a handler may pass to [write] and [end]: nothing, a Buffer, or a
    string with an optional encoding name. *)
Inductive Chunk :=
| Buf (b : Buffer)
| Str (s : jsstring) (encoding : option jsstring).

(** [if (chunk)]: an object is truthy, the empty string is not. *)
Definition chunk_truthy (c : option Chunk) : bool :=
  match c with
  | None => false
  | Some (Buf _) => true
  | Some (Str [] _) => false
  | Some (Str (_ :: _) _) => true
  end.

(** [chunk.length] *)
Definition chunk_length (c : Chunk) : Z :=
  match c with
  | Buf b => blen b
  | Str s _ => Z.of_nat (length s)
  end.

(** [encoding || 'utf8'] *)
Definition encoding_or_utf8 (encoding : option jsstring) : jsstring :=
  match encoding with
  | Some (c :: e) => c :: e
  | _ => lit "utf8"
  end.

(** ** The modem constants (lines 46-50) *)

Definition MODEM_BPS : Z := 56000.
Definition MODEM_LATENCY : Z := 120.
Definition CHUNK_INTERVAL : Z := 50.

(** [Math.floor(bps / 8)] and
    [Math.floor(bytesPerSec * interval / 1000)]; on integers the floor of
    the quotient is [Z.div]. *)
Definition bytes_per_sec (bps : Z) : Z := bps / 8.
Definition chunk_size_of (bps interval : Z) : Z :=
  bytes_per_sec bps * interval / 1000.

Definition MODEM_BYTES_PER_SEC : Z := bytes_per_sec MODEM_BPS.
Definition CHUNK_SIZE : Z := chunk_size_of MODEM_BPS CHUNK_INTERVAL.

(** The three numbers the throttle reads.  The source fixes them; the record
    lets the drip be studied at other settings as well. *)
Record Modem := mkModem {
  latency : Z;
  interval : Z;
  chunk : Z
}.

Record Settings := mkSettings {
  s_bps : Z;
  s_latency : Z;
  s_interval : Z
}.

Definition derive (s : Settings) : Modem :=
  mkModem (s_latency s) (s_interval s) (chunk_size_of (s_bps s) (s_interval s)).

Definition modem56k : Modem := mkModem MODEM_LATENCY CHUNK_INTERVAL CHUNK_SIZE.

(** [process.env] as far as the module reads it. *)
Record Env := mkEnv {
  env_VERCEL : JsVal;
  env_MODEM_MODE : JsVal
}.

Definition IS_VERCEL (e : Env) : bool := truthy (env_VERCEL e).

Definition MODEM_MODE (e : Env) : bool :=
  negb (IS_VERCEL e) && negb (strict_eq_str (env_MODEM_MODE e) (lit "false")).

(** ** The response object and the runtime around it *)

(** What the method slots of the response can hold: the methods of the
    underlying response, or the wrappers of [modemThrottle]. The middleware
    is registered once (line 110), so the methods its closures save as
    [originalWrite] and [originalEnd] are the native ones. *)
Inductive WriteImpl := WNative | WThrottled.
Inductive EndImpl := ENative | EThrottled.
Inductive RedirectImpl := RNative | RThrottled.

(** What the underlying response and the timer API are asked to do, stamped
    with the virtual time of the call. *)
Inductive Event :=
| EvWrite (t : Z) (data : Buffer)
| EvEnd (t : Z) (data : option Buffer)
| EvSetTimeout (t : Z) (delay : Z).

(** The closure [drip] of one call of the wrapped [end]: the body it
    captured and its mutable [offset]. *)
Record Closure := mkClosure {
  body : Buffer;
  offset : Z
}.

(** A pending timer: when it is due and which [drip] closure it runs. *)
Record Timer := mkTimer {
  due : Z;
  closure_id : nat
}.

Record Res := mkRes {
  write_impl : WriteImpl;
  end_impl : EndImpl;
  redirect_impl : RedirectImpl;
  chunks : list Buffer;
  statusCode : Z;
  location : option jsstring;
  clock : Z;
  disconnect : option Z;
  closures : list Closure;
  timers : list Timer;
  trace : list Event
}.

(** A response as Express hands it to the first middleware at time [t0]. *)
Definition fresh (t0 : Z) (disc : option Z) : Res :=
  mkRes WNative ENative RNative [] 200 None t0 disc [] [] [].

Definition set_methods (w : WriteImpl) (e : EndImpl) (st : Res) : Res :=
  mkRes w e (redirect_impl st) (chunks st) (statusCode st) (location st)
        (clock st) (disconnect st) (closures st) (timers st) (trace st).

Definition set_redirect (r : RedirectImpl) (st : Res) : Res :=
  mkRes (write_impl st) (end_impl st) r (chunks st) (statusCode st) (location st)
        (clock st) (disconnect st) (closures st) (timers st) (trace st).

Definition set_chunks (c : list Buffer) (st : Res) : Res :=
  mkRes (write_impl st) (end_impl st) (redirect_impl st) c (statusCode st)
        (location st) (clock st) (disconnect st) (closures st) (timers st) (trace st).

Definition set_status (code : Z) (loc : option jsstring) (st : Res) : Res :=
  mkRes (write_impl st) (end_impl st) (redirect_impl st) (chunks st) code loc
        (clock st) (disconnect st) (closures st) (timers st) (trace st).

Definition set_clock (t : Z) (st : Res) : Res :=
  mkRes (write_impl st) (end_impl st) (redirect_impl st) (chunks st) (statusCode st)
        (location st) t (disconnect st) (closures st) (timers st) (trace st).

Definition set_disconnect (d : option Z) (st : Res) : Res :=
  mkRes (write_impl st) (end_impl st) (redirect_impl st) (chunks st) (statusCode st)
        (location st) (clock st) d (closures st) (timers st) (trace st).

Definition set_closures (c : list Closure) (st : Res) : Res :=
  mkRes (write_impl st) (end_impl st) (redirect_impl st) (chunks st) (statusCode st)
        (location st) (clock st) (disconnect st) c (timers st) (trace st).

Definition set_timers (t : list Timer) (st : Res) : Res :=
  mkRes (write_impl st) (end_impl st) (redirect_impl st) (chunks st) (statusCode st)
        (location st) (clock st) (disconnect st) (closures st) t (trace st).

Definition emit (e : Event) (st : Res) : Res :=
  mkRes (write_impl st) (end_impl st) (redirect_impl st) (chunks st) (statusCode st)
        (location st) (clock st) (disconnect st) (closures st) (timers st)
        (trace st ++ [e]).

(** [setTimeout(f, delay)]: Node replaces a delay outside [1, 2^31 - 1] by 1. *)
Definition timer_delay (d : Z) : Z :=
  if (1 <=? d) && (d <=? 2147483647) then d else 1.

(** Replace the closure stored at [id]. *)
Fixpoint store (l : list Closure) (id : nat) (c : Closure) : list Closure :=
  match l, id with
  | [], _ => []
  | _ :: r, O => c :: r
  | x :: r, S k => x :: store r k c
  end.

(** Arm a timer: the queue stays ordered by due time, and a timer goes
    behind those already due at the same instant. *)
Fixpoint arm (t : Timer) (l : list Timer) : list Timer :=
  match l with
  | [] => [t]
  | x :: r => if due t <? due x then t :: x :: r else x :: arm t r
  end.

Definition setTimeout (id : nat) (delay : Z) (st : Res) : Res :=
  let st1 := emit (EvSetTimeout (clock st) delay) st in
  set_timers (arm (mkTimer (clock st + timer_delay delay) id) (timers st1)) st1.

(** ** String helpers of the handlers *)

(** The code units [String.prototype.trim] strips: WhiteSpace and
    LineTerminator of ECMAScript. *)
Definition isWhiteSpace (c : N) : bool :=
  ((9 <=? c) && (c <=? 13) || (c =? 32) || (c =? 160) || (c =? 5760)
   || (8192 <=? c) && (c <=? 8202) || (c =? 8232) || (c =? 8233)
   || (c =? 8239) || (c =? 8287) || (c =? 12288) || (c =? 65279))%N.

Fixpoint trimStart (s : jsstring) : jsstring :=
  match s with
  | [] => []
  | c :: r => if isWhiteSpace c then trimStart r else s
  end.

Definition trim (s : jsstring) : jsstring :=
  rev (trimStart (rev (trimStart s))).

(** [v.trim()]: only a string has the method. *)
Definition js_trim (v : JsVal) : Result jsstring :=
  match v with
  | VStr s => Ok (trim s)
  | _ => Throw
  end.

(** [s.replace(/c/g, rep)] for a one-character pattern. *)
Definition replaceAll (c : N) (rep : jsstring) (s : jsstring) : jsstring :=
  flat_map (fun x => if N.eqb x c then rep else [x]) s.

Definition ch_amp : N := 38.
Definition ch_lt : N := 60.
Definition ch_gt : N := 62.
Definition ch_dquote : N := 34.
Definition ch_squote : N := 39.
Definition ch_newline : N := 10.

(** Lines 145-153. *)
Definition escapeHtml (str : JsVal) : Result jsstring :=
  if negb (truthy str) then Ok []
  else match str with
       | VStr s =>
           Ok (replaceAll ch_squote (lit "&#039;")
                (replaceAll ch_dquote (lit "&quot;")
                  (replaceAll ch_gt (lit "&gt;")
                    (replaceAll ch_lt (lit "&lt;")
                      (replaceAll ch_amp (lit "&amp;") s)))))
       | _ => Throw
       end.

(** An entry of the entries file. The program stores strings for the name,
    the URL, the message and the date; the favorite it stores reads back
    as a string, as an array of strings, as the object [{}], or as
    absent. *)
Record Entry := mkEntry {
  e_name : JsVal;
  e_url : JsVal;
  e_message : JsVal;
  e_favorite : JsVal;
  e_date : JsVal
}.

(** The literal parts of the templates of [renderEntry]. *)
Definition tpl_link_open : jsstring := lit "<a href=" ++ [ch_dquote].
Definition tpl_link_mid : jsstring := [ch_dquote] ++ lit ">".
Definition tpl_link_close : jsstring := lit "</a>".
Definition tpl_fav_open : jsstring :=
  lit "<br><span style=" ++ [ch_dquote] ++ lit "font-size: 10px; color: #888;"
  ++ [ch_dquote] ++ lit ">Favorite game: ".
Definition tpl_fav_close : jsstring := lit "</span>".
Definition tpl_head : jsstring :=
  lit "  <div class=" ++ [ch_dquote] ++ lit "gb-entry" ++ [ch_dquote] ++ lit ">"
  ++ [ch_newline] ++ lit "    <span class=" ++ [ch_dquote] ++ lit "gb-date"
  ++ [ch_dquote] ++ lit ">".
Definition tpl_after_date : jsstring :=
  lit "</span>" ++ [ch_newline] ++ lit "    <span class=" ++ [ch_dquote]
  ++ lit "gb-name" ++ [ch_dquote] ++ lit ">".
Definition tpl_after_name : jsstring :=
  lit "</span>" ++ [ch_newline] ++ lit "    <div class=" ++ [ch_dquote]
  ++ lit "gb-message" ++ [ch_dquote] ++ lit ">" ++ [ch_newline] ++ lit "      ".
Definition tpl_tail : jsstring :=
  [ch_newline] ++ lit "    </div>" ++ [ch_newline] ++ lit "  </div>" ++ [ch_newline].

(** Lines 179-195. *)
Definition renderEntry (entry : Entry) : Result jsstring :=
  nameHtml <-
    (if truthy (e_url entry)
     then u <- escapeHtml (e_url entry) ;;
          n <- escapeHtml (e_name entry) ;;
          Ok (tpl_link_open ++ u ++ tpl_link_mid ++ n ++ tpl_link_close)
     else escapeHtml (e_name entry)) ;;
  favHtml <-
    (if truthy (e_favorite entry)
     then f <- escapeHtml (e_favorite entry) ;;
          Ok (tpl_fav_open ++ f ++ tpl_fav_close)
     else Ok []) ;;
  d <- escapeHtml (e_date entry) ;;
  msg <- escapeHtml (e_message entry) ;;
  Ok (tpl_head ++ d ++ tpl_after_date ++ nameHtml ++ tpl_after_name
      ++ msg ++ favHtml ++ tpl_tail).

(** The two error pages of the submission handler (lines 302-306 and
    314-318). *)
Definition page_open : jsstring :=
  lit "<html><body style=" ++ [ch_dquote]
  ++ lit "background:#000;color:#dd5500;font-family:Comic Sans MS,Verdana;text-align:center;padding:40px;"
  ++ [ch_dquote] ++ lit ">".
Definition page_close : jsstring :=
  lit "<p><a href=" ++ [ch_dquote] ++ lit "/guestbook.html" ++ [ch_dquote]
  ++ lit " style=" ++ [ch_dquote] ++ lit "color:#6677cc;" ++ [ch_dquote]
  ++ lit ">Back to the Guestbook</a></p>" ++ lit "</body></html>".
Definition p_open : jsstring :=
  lit "<p style=" ++ [ch_dquote] ++ lit "color:#ccc;" ++ [ch_dquote] ++ lit ">".

Definition PAGE_MISSING : jsstring :=
  page_open ++ lit "<h2>Arrr! Something went wrong!</h2>" ++ p_open
  ++ lit "You must provide both a name and a message, ye scurvy dog!</p>"
  ++ page_close.

Definition PAGE_TOO_LONG : jsstring :=
  page_open ++ lit "<h2>Arrr! Too many words!</h2>" ++ p_open
  ++ lit "Keep your name under 50 characters and your message under 1000, matey!</p>"
  ++ page_close.

(** What the five replacements of [escapeHtml] make of one code unit. *)
Definition esc (x : N) : jsstring :=
  if N.eqb x ch_amp then lit "&amp;"
  else if N.eqb x ch_lt then lit "&lt;"
  else if N.eqb x ch_gt then lit "&gt;"
  else if N.eqb x ch_dquote then lit "&quot;"
  else if N.eqb x ch_squote then lit "&#039;"
  else [x].

(** The characters that open or close markup and attribute values. *)
Definition is_raw (x : N) : bool :=
  N.eqb x ch_lt || N.eqb x ch_gt || N.eqb x ch_dquote || N.eqb x ch_squote.

Definition raw_free (s : jsstring) : bool := forallb (fun x => negb (is_raw x)) s.

Definition count (c : N) (s : jsstring) : nat := count_occ N.eq_dec s c.

Fixpoint starts_with (p s : jsstring) : bool :=
  match p, s with
  | [], _ => true
  | _ :: _, [] => false
  | a :: p', b :: s' => N.eqb a b && starts_with p' s'
  end.

Definition entities : list jsstring :=
  [lit "&amp;"; lit "&lt;"; lit "&gt;"; lit "&quot;"; lit "&#039;"].

(** Every ampersand of [s] is the first character of one of the entities. *)
Fixpoint amps_begin_entities (s : jsstring) : bool :=
  match s with
  | [] => true
  | c :: r =>
      (if N.eqb c ch_amp then existsb (fun en => starts_with en s) entities else true)
      && amps_begin_entities r
  end.

(** The page [renderEntry] builds around the texts it is given; [link] and
    [fav] say whether the entry has a URL and a favorite game. *)
Definition entry_page (link fav : bool) (d u n msg f : jsstring) : jsstring :=
  tpl_head ++ d ++ tpl_after_date
  ++ (if link then tpl_link_open ++ u ++ tpl_link_mid ++ n ++ tpl_link_close else n)
  ++ tpl_after_name ++ msg
  ++ (if fav then tpl_fav_open ++ f ++ tpl_fav_close else [])
  ++ tpl_tail.

(** A form or entry field that is a string or absent, neither an array
    nor an object. *)
Definition textual (v : JsVal) : bool :=
  match v with
  | VUndef => true
  | VStr _ => true
  | VArr _ => false
  | VObj => false
  end.

(** A field that is absent, empty, or white space only. *)
Definition blank (v : JsVal) : bool :=
  match v with
  | VUndef => true
  | VStr s => forallb isWhiteSpace s
  | VArr _ => false
  | VObj => false
  end.

(** The request as far as the modelled code reads it. *)
Record Req := mkReq {
  query_turbo : JsVal;
  body_name : JsVal;
  body_message : JsVal;
  body_url : JsVal;
  body_favorite : JsVal
}.

(** UTF-8 of a JavaScript string, the encoding [Buffer.from] applies for
    ['utf8']: a surrogate pair is one 4-byte sequence, a lone surrogate is
    U+FFFD. *)
Definition byte_of (n : N) : byte :=
  match Byte.of_N n with
  | Some b => b
  | None => x00
  end.

Definition replacement : Buffer := [xef; xbf; xbd].

Fixpoint utf8 (s : jsstring) : Buffer :=
  match s with
  | [] => []
  | c :: r =>
      (if c <? 128 then byte_of c :: utf8 r
       else if c <? 2048 then
         byte_of (192 + c / 64) :: byte_of (128 + c mod 64) :: utf8 r
       else if (55296 <=? c) && (c <? 56320) then
         match r with
         | d :: r' =>
             if (56320 <=? d) && (d <? 57344) then
               let cp := 65536 + (c - 55296) * 1024 + (d - 56320) in
               byte_of (240 + cp / 262144) :: byte_of (128 + (cp / 4096) mod 64)
               :: byte_of (128 + (cp / 64) mod 64) :: byte_of (128 + cp mod 64)
               :: utf8 r'
             else replacement ++ utf8 r
         | [] => replacement
         end
       else if (56320 <=? c) && (c <? 57344) then replacement ++ utf8 r
       else
         byte_of (224 + c / 4096) :: byte_of (128 + (c / 64) mod 64)
         :: byte_of (128 + c mod 64) :: utf8 r)%N
  end.

(** An instance of [Buffer.from] for the examples: every encoding name is
    read as ['utf8']. *)
Definition Buffer_from_utf8 (s : jsstring) (encoding : jsstring) : Buffer := utf8 s.

(** An event with its bytes blanked: its kind, its time and its size. *)
Definition outline (ev : Event) : Event :=
  match ev with
  | EvWrite t d => EvWrite t (repeat x00 (length d))
  | EvEnd t d => EvEnd t (option_map (fun b => repeat x00 (length b)) d)
  | EvSetTimeout t d => EvSetTimeout t d
  end.

(** The text of a field: the string it holds, nothing when it is absent. *)
Definition text_of (v : JsVal) : jsstring :=
  match v with
  | VStr s => s
  | _ => []
  end.

(** Neither the first nor the last code unit of [s] is white space. *)
Definition clean_edges (s : jsstring) : bool :=
  match s with
  | [] => true
  | c :: _ => negb (isWhiteSpace c)
  end
  && match rev s with
     | [] => true
     | c :: _ => negb (isWhiteSpace c)
     end.

(** ** Numbers as text *)

(** The decimal digits of [n], most significant first, in front of [acc]. *)
Fixpoint digits_of (fuel : nat) (n : N) (acc : jsstring) : jsstring :=
  match fuel with
  | O => acc
  | S f =>
      let acc' := (48 + n mod 10)%N :: acc in
      if (n <? 10)%N then acc' else digits_of f (n / 10)%N acc'
  end.

Definition String_of_N (n : N) : jsstring :=
  digits_of (S (N.to_nat (N.log2 n))) n [].

(** [String(z)] for an integer [z]; JavaScript prints an integer this way
    as long as it is below 10^21 in absolute value. *)
Definition js_String (z : Z) : jsstring :=
  if z <? 0 then 45%N :: String_of_N (Z.to_N (- z)) else String_of_N (Z.to_N z).

(** The first [n] code units of [fill] repeated, [cur] being what is left
    of the copy at hand. *)
Fixpoint cycle (n : nat) (fill cur : jsstring) : jsstring :=
  match n with
  | O => []
  | S k =>
      match cur with
      | c :: r => c :: cycle k fill r
      | [] =>
          match fill with
          | c :: r => c :: cycle k fill r
          | [] => []
          end
      end
  end.

(** [s.padStart(target, fill)] *)
Definition padStart (target : Z) (fill : jsstring) (s : jsstring) : jsstring :=
  let len := Z.of_nat (length s) in
  match fill with
  | [] => s
  | _ :: _ =>
      if target <=? len then s
      else cycle (Z.to_nat (target - len)) fill fill ++ s
  end.

(** Lines 243-245. *)
Definition formatCounter (count : Z) : jsstring :=
  padStart 7 (lit "0") (js_String count).

(** The double nearest to the integer [z], ties to even: what JavaScript
    rounds the exact result of an addition to. Every integer below 2^53 in
    absolute value is a double; from there on the doubles are the
    multiples of 2^(log2 |z| - 52). *)
Definition round53 (z : Z) : Z :=
  let a := Z.abs z in
  if a <? 2 ^ 53 then z
  else
    let ulp := 2 ^ (Z.log2 a - 52) in
    let q := a / ulp in
    let r := a mod ulp in
    let q' :=
      if 2 * r <? ulp then q
      else if ulp <? 2 * r then q + 1
      else if Z.even q then q else q + 1 in
    Z.sgn z * (q' * ulp).

(** [a + b] on numbers that hold integers. *)
Definition js_add (a b : Z) : Z := round53 (a + b).

(** [counter.json] as [readCounter] finds it: [None] when the file cannot
    be read or parsed or holds no count, [Some n] when it holds the count
    [n], an integer that is a double. Lines 226-233. *)
Definition readCounter (file : option Z) : Z :=
  match file with
  | Some n => n
  | None => 0
  end.

(** Lines 236-240: the count handed to the page and the file afterwards. *)
Definition incrementCounter (file : option Z) : Z * option Z :=
  let count := js_add (readCounter file) 1 in
  (count, Some count).

(** The local time a [Date] answers with. *)
Record LocalTime := mkLocalTime {
  getMonth : Z;
  getDate : Z;
  getFullYear : Z;
  getHours : Z;
  getMinutes : Z
}.

(** Lines 156-166, on the fields of [new Date(date)]. *)
Definition formatDate (d : LocalTime) : jsstring :=
  let month := padStart 2 (lit "0") (js_String (getMonth d + 1)) in
  let day := padStart 2 (lit "0") (js_String (getDate d)) in
  let year := getFullYear d in
  let hours := getHours d in
  let minutes := padStart 2 (lit "0") (js_String (getMinutes d)) in
  let ampm := if 12 <=? hours then lit "PM" else lit "AM" in
  let hours := if Z.rem hours 12 =? 0 then 12 else Z.rem hours 12 in
  month ++ lit "/" ++ day ++ lit "/" ++ js_String year ++ lit " - "
  ++ js_String hours ++ lit ":" ++ minutes ++ lit " " ++ ampm.

(** ** Reading numbers *)

(** [array.join(',')] of an array of strings. *)
Fixpoint join (l : list jsstring) : jsstring :=
  match l with
  | [] => []
  | [s] => s
  | s :: r => s ++ 44%N :: join r
  end.

(** [String(v)] *)
Definition ToString (v : JsVal) : jsstring :=
  match v with
  | VUndef => lit "undefined"
  | VStr s => s
  | VArr l => join l
  | VObj => lit "[object Object]"
  end.

(** The value of a code unit as a digit of the radix, if it is one. *)
Definition digit_val (radix c : N) : option N :=
  let d :=
    (if (48 <=? c) && (c <=? 57) then Some (c - 48)
     else if (97 <=? c) && (c <=? 122) then Some (c - 87)
     else if (65 <=? c) && (c <=? 90) then Some (c - 55)
     else None)%N in
  match d with
  | Some x => if (x <? radix)%N then Some x else None
  | None => None
  end.

(** The digits at the head of [s]; [seen] says whether one was read. *)
Fixpoint parse_digits (radix : N) (s : jsstring) (acc : N) (seen : bool) : option N :=
  match s with
  | [] => if seen then Some acc else None
  | c :: r =>
      match digit_val radix c with
      | Some d => parse_digits radix r (radix * acc + d)%N true
      | None => if seen then Some acc else None
      end
  end.

(** [parseInt(v)]: [None] is [NaN]. Leading white space is skipped, a sign
    and a [0x] prefix are read, and parsing stops at the first code unit
    that is not a digit. The value is kept exact where JavaScript rounds
    to a double. *)
Definition parseInt (v : JsVal) : option Z :=
  let s := trimStart (ToString v) in
  let negative :=
    match s with
    | c :: _ => N.eqb c 45
    | [] => false
    end in
  let s1 :=
    match s with
    | c :: r => if N.eqb c 45 || N.eqb c 43 then r else s
    | [] => []
    end in
  let hex :=
    match s1 with
    | c :: d :: _ => N.eqb c 48 && (N.eqb d 120 || N.eqb d 88)
    | _ => false
    end in
  match parse_digits (if hex then 16 else 10) (if hex then skipn 2 s1 else s1)
                     0 false with
  | Some n => Some (if negative then - Z.of_N n else Z.of_N n)
  | None => None
  end.

(** A decimal digit, and the number a string of them denotes after [a]. *)
Definition is_digit (c : N) : bool := ((48 <=? c) && (c <=? 57))%N.

Fixpoint dec_val (a : N) (s : jsstring) : N :=
  match s with
  | [] => a
  | c :: r => dec_val (10 * a + (c - 48))%N r
  end.

(** ** Placeholders *)

(** The first occurrence of [pat] in [s]: what stands before it and what
    stands after it. *)
Fixpoint find_sub (pat s : jsstring) : option (jsstring * jsstring) :=
  if starts_with pat s then Some ([], skipn (length pat) s)
  else
    match s with
    | [] => None
    | c :: r =>
        match find_sub pat r with
        | Some (a, b) => Some (c :: a, b)
        | None => None
        end
    end.

(** The replacement text of [String.prototype.replace] for a string
    pattern: [$$] is a dollar, [$&] the match, [$`] and [$'] what stands
    before and after it; with no capture group every other [$] stays. *)
Fixpoint expand (matched before after rep : jsstring) : jsstring :=
  match rep with
  | [] => []
  | c :: r =>
      if N.eqb c 36 then
        match r with
        | d :: r' =>
            if N.eqb d 36 then 36%N :: expand matched before after r'
            else if N.eqb d 38 then matched ++ expand matched before after r'
            else if N.eqb d 96 then before ++ expand matched before after r'
            else if N.eqb d 39 then after ++ expand matched before after r'
            else c :: expand matched before after r
        | [] => [c]
        end
      else c :: expand matched before after r
  end.

(** [s.replace(pat, rep)] for strings [pat] and [rep]. *)
Definition js_replace (s pat rep : jsstring) : jsstring :=
  match find_sub pat s with
  | Some (a, b) => a ++ expand pat a b rep ++ b
  | None => s
  end.

Definition VISITOR_COUNT : jsstring := lit "<!-- VISITOR_COUNT -->".
Definition PAGINATION_TOP : jsstring := lit "<!-- GUESTBOOK_PAGINATION_TOP -->".
Definition GUESTBOOK_ENTRIES : jsstring := lit "<!-- GUESTBOOK_ENTRIES -->".
Definition PAGINATION_BOTTOM : jsstring := lit "<!-- GUESTBOOK_PAGINATION_BOTTOM -->".

(** Lines 248-253: what the handler hands to [res.send] for the template
    [index_html], and the counter file afterwards. *)
Definition home_page (index_html : jsstring) (file : option Z)
  : jsstring * option Z :=
  let counted := incrementCounter file in
  (js_replace index_html VISITOR_COUNT (formatCounter (fst counted)), snd counted).

(** [n] requests for the home page in a row: the pages served, in order,
    and the counter file at the end. *)
Fixpoint visits (index_html : jsstring) (n : nat) (file : option Z)
  : list jsstring * option Z :=
  match n with
  | O => ([], file)
  | S k =>
      let first := home_page index_html file in
      let rest := visits index_html k (snd first) in
      (fst first :: fst rest, snd rest)
  end.

(** ** The favorite game *)

(** What [map[value]] can find: a label of the object literal, a member
    inherited from [Object.prototype], or nothing. *)
Definition own_label (key : jsstring) : option jsstring :=
  if jsstring_eqb key (lit "somi") then Some (lit "The Secret of Monkey Island")
  else if jsstring_eqb key (lit "mi2") then Some (lit "Monkey Island 2: LeChuck's Revenge")
  else if jsstring_eqb key (lit "comi") then Some (lit "The Curse of Monkey Island")
  else None.

Definition inherited_keys : list jsstring :=
  [ lit "constructor"; lit "__defineGetter__"; lit "__defineSetter__";
    lit "hasOwnProperty"; lit "__lookupGetter__"; lit "__lookupSetter__";
    lit "isPrototypeOf"; lit "propertyIsEnumerable"; lit "toString";
    lit "valueOf"; lit "__proto__"; lit "toLocaleString" ].

Definition inherited (key : jsstring) : bool :=
  existsb (jsstring_eqb key) inherited_keys.

(** What [favoriteLabel] returns: a value, or the member of
    [Object.prototype] found under the key. *)
Inductive Fav :=
| FavVal (v : JsVal)
| FavProto (key : jsstring).

(** Lines 169-176. *)
Definition favoriteLabel (value : JsVal) : Fav :=
  match own_label (ToString value) with
  | Some label => FavVal (VStr label)
  | None =>
      if inherited (ToString value) then FavProto (ToString value)
      else FavVal (js_or value (VStr []))
  end.

(** ** Cache control (lines 114-124) *)

(** [url.split('?')[0]] *)
Fixpoint before_query (url : jsstring) : jsstring :=
  match url with
  | [] => []
  | c :: r => if N.eqb c 63 then [] else c :: before_query r
  end.

(** [s.endsWith(suffix)] *)
Definition endsWith (s suffix : jsstring) : bool :=
  starts_with (rev suffix) (rev s).

(** The headers the middleware sets for a request URL; it is registered
    only in modem mode. *)
Definition cache_headers (e : Env) (req_url : jsstring) : list (jsstring * jsstring) :=
  if MODEM_MODE e then
    let url := before_query req_url in
    if jsstring_eqb url (lit "/") || endsWith url (lit ".html")
    then [ (lit "Cache-Control", lit "no-store, no-cache, must-revalidate");
           (lit "Pragma", lit "no-cache");
           (lit "Expires", lit "0") ]
    else []
  else [].

(** ** The guestbook page (lines 198-223 and 256-290) *)

Definition ENTRIES_PER_PAGE : Z := 10.

(** [Math.ceil(a / b)] for integers [a] and a positive [b]. *)
Definition Math_ceil_div (a b : Z) : Z := - ((- a) / b).

(** [array.slice(start, stop)] *)
Definition Array_slice {A : Type} (l : list A) (start stop : Z) : list A :=
  let len := Z.of_nat (length l) in
  let s := norm_index len start in
  let e := norm_index len stop in
  firstn (Z.to_nat (e - s)) (skipn (Z.to_nat s) l).

(** Line 259: [Math.ceil(totalEntries / ENTRIES_PER_PAGE) || 1]. *)
Definition total_pages (totalEntries : Z) : Z :=
  let n := Math_ceil_div totalEntries ENTRIES_PER_PAGE in
  if n =? 0 then 1 else n.

(** Lines 261-263: [parseInt(req.query.page) || 1], then the two bounds. *)
Definition current_page (query_page : JsVal) (totalPages : Z) : Z :=
  let page :=
    match parseInt query_page with
    | Some n => if n =? 0 then 1 else n
    | None => 1
    end in
  let page := if page <? 1 then 1 else page in
  if totalPages <? page then totalPages else page.

(** Lines 266-268: the entries of a page, newest first. *)
Definition page_entries (entries : list Entry) (page : Z) : list Entry :=
  let reversed := rev entries in
  let start := (page - 1) * ENTRIES_PER_PAGE in
  Array_slice reversed start (start + ENTRIES_PER_PAGE).

(** Lines 271-274. *)
Fixpoint render_entries (l : list Entry) : Result jsstring :=
  match l with
  | [] => Ok []
  | entry :: r =>
      h <- renderEntry entry ;;
      t <- render_entries r ;;
      Ok (h ++ t)
  end.

(** Lines 202-203: the range the bottom line announces. *)
Definition range_start (currentPage : Z) : Z :=
  (currentPage - 1) * ENTRIES_PER_PAGE + 1.

Definition range_end (totalEntries currentPage : Z) : Z :=
  Z.min (currentPage * ENTRIES_PER_PAGE) totalEntries.

Definition page_href (i : Z) : jsstring :=
  lit "<a href=" ++ [ch_dquote] ++ lit "/guestbook.html?page=" ++ js_String i
  ++ [ch_dquote] ++ lit ">".

(** Lines 209-214: the item of page [i]. *)
Definition page_item (totalPages currentPage i : Z) : jsstring :=
  (if i =? currentPage
   then lit "<b>Page " ++ js_String i ++ lit "</b> "
   else page_href i ++ js_String i ++ lit "</a> ")
  ++ (if i <? totalPages then lit "| " else []).

(** Lines 198-223. *)
Definition renderPagination (totalEntries currentPage : Z) : jsstring :=
  let totalPages := Math_ceil_div totalEntries ENTRIES_PER_PAGE in
  if totalPages <=? 1 then []
  else
    lit "  <p style=" ++ [ch_dquote] ++ lit "text-align: center;" ++ [ch_dquote]
    ++ lit ">" ++ [ch_newline]
    ++ lit "    Showing entries " ++ js_String (range_start currentPage)
    ++ lit "-" ++ js_String (range_end totalEntries currentPage)
    ++ lit " of " ++ js_String totalEntries ++ lit " | "
    ++ concat (map (fun k => page_item totalPages currentPage (Z.of_nat k))
                   (seq 1 (Z.to_nat totalPages)))
    ++ (if currentPage <? totalPages
        then lit "| " ++ page_href (currentPage + 1) ++ lit "Next &raquo;</a>"
        else [])
    ++ [ch_newline] ++ lit "  </p>".

Definition orange_open : jsstring :=
  lit "<b style=" ++ [ch_dquote] ++ lit "color:#cc7733;" ++ [ch_dquote] ++ lit ">".

(** Lines 277-279. *)
Definition pagination_top (totalEntries page totalPages : Z) : jsstring :=
  lit "  <p>" ++ [ch_newline] ++ lit "    Total entries: " ++ orange_open
  ++ js_String totalEntries ++ lit "</b> |" ++ [ch_newline]
  ++ lit "    Page: " ++ orange_open ++ js_String page ++ lit "</b> of "
  ++ orange_open ++ js_String totalPages ++ lit "</b>"
  ++ (if page <? totalPages
      then lit " |" ++ [ch_newline] ++ lit "    " ++ page_href (page + 1)
           ++ lit "Next Page &raquo;</a>"
      else [])
  ++ [ch_newline] ++ lit "  </p>".

(** Lines 256-290: what the handler hands to [res.send] for the entries on
    file, the [page] of the query and the template [guestbook_html]. *)
Definition guestbook_page (guestbook_html : jsstring) (query_page : JsVal)
  (entries : list Entry) : Result jsstring :=
  let totalEntries := Z.of_nat (length entries) in
  let totalPages := total_pages totalEntries in
  let page := current_page query_page totalPages in
  entriesHtml <- render_entries (page_entries entries page) ;;
  let paginationTop := pagination_top totalEntries page totalPages in
  let paginationBottom := renderPagination totalEntries page in
  Ok (js_replace
        (js_replace (js_replace guestbook_html PAGINATION_TOP paginationTop)
                    GUESTBOOK_ENTRIES entriesHtml)
        PAGINATION_BOTTOM paginationBottom).

(** An entry all of whose fields are strings or absent. *)
Definition renderable (entry : Entry) : bool :=
  textual (e_name entry) && textual (e_url entry) && textual (e_message entry)
  && textual (e_favorite entry) && textual (e_date entry).

(** The three headers of lines 118-120. *)
Definition no_cache_headers : list (jsstring * jsstring) :=
  [ (lit "Cache-Control", lit "no-store, no-cache, must-revalidate");
    (lit "Pragma", lit "no-cache");
    (lit "Expires", lit "0") ].

(** Sample inputs: the default environment, a plain request, a request
    with [?turbo=1], and a body of 900 bytes. *)
Definition env_default : Env := mkEnv VUndef VUndef.
Definition req_plain : Req := mkReq VUndef VUndef VUndef VUndef VUndef.
Definition req_turbo : Req := mkReq (VStr (lit "1")) VUndef VUndef VUndef VUndef.
Definition body900 : Buffer := repeat x2e 900.

(** Express's redirect body for a client that accepts plain text. *)
Definition redirect_body_text (url : jsstring) : option Chunk :=
  Some (Str (lit "Found. Redirecting to " ++ url) None).

(** A submission with the name given twice and an empty message, as the
    URL-encoded parser hands it over for
    [name=Guybrush&name=Threepwood&message=]. *)
Definition req_two_names : Req :=
  mkReq VUndef (VArr [lit "Guybrush"; lit "Threepwood"]) (VStr []) VUndef VUndef.

(** A submission with a name and a message of blanks. *)
Definition req_blank_message : Req :=
  mkReq VUndef (VStr (lit "Elaine")) (VStr (lit "   ")) VUndef VUndef.

(** The same submission with [?turbo=1]. *)
Definition req_blank_message_turbo : Req :=
  mkReq (VStr (lit "1")) (VStr (lit "Elaine")) (VStr (lit "   ")) VUndef VUndef.

(** An entry whose every field tries to inject markup. *)
Definition entry_hostile : Entry :=
  mkEntry (VStr (lit "<b>Guybrush</b>"))
          (VStr (lit "javascript:alert('x')"))
          (VStr (lit "<script>alert(1)</script> & more"))
          (VStr (lit "'mi2'"))
          (VStr (lit "01/01/1999 - 12:00 AM")).

(** A home page template with one placeholder. *)
Definition index_sample : jsstring := lit "<b><!-- VISITOR_COUNT --></b>".

(** A guestbook template with the three placeholders. *)
Definition guestbook_sample : jsstring :=
  lit "<!-- GUESTBOOK_PAGINATION_TOP -->" ++ [ch_newline]
  ++ lit "<!-- GUESTBOOK_ENTRIES -->" ++ [ch_newline]
  ++ lit "<!-- GUESTBOOK_PAGINATION_BOTTOM -->".

(** The label as the entries file gives it back. [JSON.stringify] writes
    [Object.prototype], the member found under [__proto__], as [{}], and
    leaves out a property that holds a function, which all the other
    members are. *)
Definition stored_label (v : JsVal) : JsVal :=
  match favoriteLabel v with
  | FavVal r => r
  | FavProto key => if jsstring_eqb key (lit "__proto__") then VObj else VUndef
  end.

Definition today_sample : jsstring := lit "01/01/1999 - 12:00 AM".

(** A submission with the favorite given twice, as the URL-encoded parser
    hands it over for [name=Elaine&message=Ahoy&favorite=somi&favorite=mi2]. *)
Definition req_two_favorites : Req :=
  mkReq VUndef (VStr (lit "Elaine")) (VStr (lit "Ahoy")) VUndef
        (VArr [lit "somi"; lit "mi2"]).

Definition entry_two_favorites : Entry :=
  mkEntry (VStr (lit "Elaine")) (VStr []) (VStr (lit "Ahoy"))
          (VArr [lit "somi"; lit "mi2"]) (VStr today_sample).

(** A submission with blanks around the name, a bare [http://] and a game
    code. *)
Definition req_signed : Req :=
  mkReq VUndef (VStr (lit " Elaine ")) (VStr (lit "Ahoy")) (VStr (lit "http://"))
        (VStr (lit "mi2")).

Definition entry_signed : Entry :=
  mkEntry (VStr (lit "Elaine")) (VStr []) (VStr (lit "Ahoy"))
          (VStr (lit "Monkey Island 2: LeChuck's Revenge")) (VStr today_sample).

(** A submission that names [__proto__] as the favorite, and the entry as
    the entries file gives it back. *)
Definition req_proto_favorite : Req :=
  mkReq VUndef (VStr (lit "LeChuck")) (VStr (lit "Arrr")) VUndef
        (VStr (lit "__proto__")).

Definition entry_proto_favorite : Entry :=
  mkEntry (VStr (lit "LeChuck")) (VStr []) (VStr (lit "Arrr")) VObj
          (VStr today_sample).

(** The environment on Vercel, and a line of 9600 bit/s: 60 bytes a tick. *)
Definition env_vercel : Env := mkEnv (VStr (lit "1")) VUndef.
Definition settings_9600 : Settings := mkSettings 9600 120 50.

(** ** The middleware and the handlers *)

Section Server.

(** Node's [Buffer.from(string, encoding)]. *)
Variable Buffer_from : jsstring -> jsstring -> Buffer.

(** What Express's own [redirect] passes to [this.end] for a target URL: a
    short body, or nothing for a HEAD request. *)
Variable redirect_body : jsstring -> option Chunk.

(** [favoriteLabel] (lines 169-176) and [formatDate(new Date())] are not
    interpreted: they only shape the entry a valid submission stores. *)
Variable favoriteLabel : JsVal -> JsVal.
Variable today : jsstring.

(** [Buffer.isBuffer(chunk) ? chunk : Buffer.from(chunk, encoding || 'utf8')] *)
Definition to_buffer (c : Chunk) : Buffer :=
  match c with
  | Buf b => b
  | Str s encoding => Buffer_from s (encoding_or_utf8 encoding)
  end.

(** The methods of the underlying response: the bytes go out at once. *)
Definition native_write (c : Chunk) (st : Res) : Res :=
  emit (EvWrite (clock st) (to_buffer c)) st.

Definition native_end (c : option Chunk) (st : Res) : Res :=
  emit (EvEnd (clock st) (option_map to_buffer c)) st.

(** Lines 71-76; the call always answers [true]. *)
Definition throttled_write (c : Chunk) (st : Res) : Res :=
  if chunk_truthy (Some c)
  then set_chunks (chunks st ++ [to_buffer c]) st
  else st.

(** One run of the [drip] callback (lines 92-101) of closure [id]; [m]
    holds [CHUNK_SIZE] and [CHUNK_INTERVAL]. *)
Definition drip (m : Modem) (id : nat) (st : Res) : Res :=
  match nth_error (closures st) id with
  | None => st
  | Some c =>
      let stop := Z.min (offset c + chunk m) (blen (body c)) in
      let st1 := native_write (Buf (slice (body c) (offset c) stop)) st in
      let st2 := set_closures (store (closures st1) id (mkClosure (body c) stop)) st1 in
      if blen (body c) <=? stop
      then native_end None st2
      else setTimeout id (interval m) st2
  end.

(** Lines 79-81: the optional last chunk joins the buffered ones. *)
Definition push_final (c : option Chunk) (st : Res) : Res :=
  match c with
  | Some ch =>
      if chunk_truthy c && (0 <? chunk_length ch)
      then set_chunks (chunks st ++ [to_buffer ch]) st
      else st
  | None => st
  end.

(** Line 83: the finalized body. *)
Definition finalized (c : option Chunk) (st : Res) : Buffer :=
  Buffer_concat (chunks (push_final c st)).

(** Lines 78-104. *)
Definition throttled_end (m : Modem) (c : option Chunk) (st : Res) : Res :=
  let st1 := push_final c st in
  let body := Buffer_concat (chunks st1) in
  if blen body =? 0 then native_end None st1
  else
    let id := length (closures st1) in
    setTimeout id (latency m)
      (set_closures (closures st1 ++ [mkClosure body 0]) st1).

(** [res.write(chunk, encoding)] and [res.end(chunk, encoding)]: whatever the
    slot holds at the time of the call. *)
Definition res_write (c : Chunk) (st : Res) : Res :=
  match write_impl st with
  | WNative => native_write c st
  | WThrottled => throttled_write c st
  end.

Definition res_end (m : Modem) (c : option Chunk) (st : Res) : Res :=
  match end_impl st with
  | ENative => native_end c st
  | EThrottled => throttled_end m c st
  end.

(** Express's [redirect]: status 302, the Location header, then
    [this.end(body)] through the response's current [end]. *)
Definition native_redirect (m : Modem) (url : jsstring) (st : Res) : Res :=
  res_end m (redirect_body url) (set_status 302 (Some url) st).

(** Lines 60-65. *)
Definition throttled_redirect (m : Modem) (url : jsstring) (st : Res) : Res :=
  native_redirect m url (set_methods WNative ENative st).

Definition res_redirect (m : Modem) (url : jsstring) (st : Res) : Res :=
  match redirect_impl st with
  | RNative => native_redirect m url st
  | RThrottled => throttled_redirect m url st
  end.

(** Express's [res.status(code).send(string)] on a POST: the status is set
    and the page goes to [this.end(chunk, 'utf8')]. *)
Definition res_status_send (m : Modem) (code : Z) (page : jsstring) (st : Res) : Res :=
  res_end m (Some (Str page (Some (lit "utf8"))))
          (set_status code (location st) st).

(** Lines 52-107, up to the call of [next()]. *)
Definition modemThrottle (e : Env) (req : Req) (st : Res) : Res :=
  if negb (MODEM_MODE e) then st
  else if strict_eq_str (query_turbo req) (lit "1") then st
  else set_methods WThrottled EThrottled
         (set_chunks [] (set_redirect RThrottled st)).

(** The event loop: the earliest timer fires, the clock moves to its due
    time. *)
Definition tick (m : Modem) (st : Res) : Res :=
  match timers st with
  | [] => st
  | t :: rest =>
      drip m (closure_id t)
           (set_clock (Z.max (clock st) (due t)) (set_timers rest st))
  end.

Fixpoint run (m : Modem) (n : nat) (st : Res) : Res :=
  match n with
  | O => st
  | S k => run m k (tick m st)
  end.

(** What a handler can do with the response. *)
Inductive Op :=
| OpWrite (c : Chunk)
| OpEnd (c : option Chunk)
| OpRedirect (url : jsstring).

Definition exec_op (m : Modem) (o : Op) (st : Res) : Res :=
  match o with
  | OpWrite c => res_write c st
  | OpEnd c => res_end m c st
  | OpRedirect url => res_redirect m url st
  end.

Fixpoint exec (m : Modem) (ops : list Op) (st : Res) : Res :=
  match ops with
  | [] => st
  | o :: r => exec m r (exec_op m o st)
  end.

(** Lines 293-343; [db] is what [readEntries()] returns, the second
    component of the result is what is on disk afterwards. *)
Definition sign_guestbook (m : Modem) (req : Req) (db : list Entry) (st : Res)
  : Result (Res * list Entry) :=
  name <- js_trim (js_or (body_name req) (VStr [])) ;;
  message <- js_trim (js_or (body_message req) (VStr [])) ;;
  url <- js_trim (js_or (body_url req) (VStr [])) ;;
  let favorite := js_or (body_favorite req) (VStr []) in
  if negb (truthy (VStr name)) || negb (truthy (VStr message))
  then Ok (res_status_send m 400 PAGE_MISSING st, db)
  else if (50 <? Z.of_nat (length name)) || (1000 <? Z.of_nat (length message))
  then Ok (res_status_send m 400 PAGE_TOO_LONG st, db)
  else
    let cleanUrl :=
      if truthy (VStr url) && negb (jsstring_eqb url (lit "http://"))
         && negb (jsstring_eqb url (lit "https://"))
      then url else [] in
    let entry := mkEntry (VStr name) (VStr cleanUrl) (VStr message)
                         (favoriteLabel favorite) (VStr today) in
    Ok (res_redirect m (lit "/guestbook.html") st, db ++ [entry]).

(** A request through the application: the throttle first, then the route's
    handler. *)
Definition post_sign_guestbook (m : Modem) (e : Env) (req : Req)
  (db : list Entry) (st : Res) : Result (Res * list Entry) :=
  sign_guestbook m req db (modemThrottle e req st).

(** ** Reading a trace *)

Definition written (ev : Event) : list Buffer :=
  match ev with
  | EvWrite _ d => [d]
  | _ => []
  end.

(** The pieces handed to the underlying [write], in order. *)
Definition pieces (tr : list Event) : list Buffer := flat_map written tr.

Definition delay_of (ev : Event) : Z :=
  match ev with
  | EvSetTimeout _ d => timer_delay d
  | _ => 0
  end.

(** The sum of the delays asked of [setTimeout]. *)
Definition total_delay (tr : list Event) : Z :=
  fold_right (fun ev acc => delay_of ev + acc) 0 tr.

Definition is_end (ev : Event) : bool :=
  match ev with
  | EvEnd _ _ => true
  | _ => false
  end.

Definition is_write (ev : Event) : bool :=
  match ev with
  | EvWrite _ _ => true
  | _ => false
  end.

Definition time_of (ev : Event) : Z :=
  match ev with
  | EvWrite t _ => t
  | EvEnd t _ => t
  | EvSetTimeout t _ => t
  end.

(** The [offset] of the first [drip] closure, 0 before it exists. *)
Definition cursor (st : Res) : Z :=
  match closures st with
  | c :: _ => offset c
  | [] => 0
  end.

(** What an operation asks of the underlying response when nothing stands
    in between, at time [t]. *)
Definition passthrough (t : Z) (o : Op) : Event :=
  match o with
  | OpWrite c => EvWrite t (to_buffer c)
  | OpEnd c => EvEnd t (option_map to_buffer c)
  | OpRedirect url => EvEnd t (option_map to_buffer (redirect_body url))
  end.

(** Whether [modemThrottle] wraps the response of this request. *)
Definition throttles (e : Env) (req : Req) : bool :=
  MODEM_MODE e && negb (strict_eq_str (query_turbo req) (lit "1")).

(** The response of a throttled request once the handler has issued the
    writes [ws], before it ends the response. *)
Definition buffering (m : Modem) (e : Env) (req : Req) (t0 : Z)
  (disc : option Z) (ws : list Chunk) : Res :=
  exec m (map OpWrite ws) (modemThrottle e req (fresh t0 disc)).

(** The same response [k] timer ticks after the handler ended it with [c]. *)
Definition served (m : Modem) (e : Env) (req : Req) (t0 : Z)
  (disc : option Z) (ws : list Chunk) (c : option Chunk) (k : nat) : Res :=
  run m k (res_end m c (buffering m e req t0 disc ws)).

(** The [i]-th window of [chunk m] bytes of [body], counted from [o]. *)
Definition piece_at (m : Modem) (body : Buffer) (o : Z) (i : nat) : Buffer :=
  slice body (o + Z.of_nat i * chunk m)
        (Z.min (o + (Z.of_nat i + 1) * chunk m) (blen body)).

(** [ceil(a / b)] for a positive [b]. *)
Definition ceil_div (a b : Z) : Z := (a + b - 1) / b.

(** What the drip of [body] asks of the underlying response and of the timer
    API from [offset] on, the first tick firing at time [t]: the tick
    unrolled [n] times. *)
Fixpoint schedule (m : Modem) (n : nat) (body : Buffer) (offset t : Z) : list Event :=
  match n with
  | O => []
  | S k =>
      let stop := Z.min (offset + chunk m) (blen body) in
      EvWrite t (slice body offset stop)
      :: (if blen body <=? stop then [EvEnd t None]
          else EvSetTimeout t (interval m)
               :: schedule m k body stop (t + timer_delay (interval m)))
  end.

(** ** Arithmetic and list facts *)

(** Whether the tick at hand is the last one: the test of line 96. *)
Ltac tick_cases E :=
  match goal with
  | |- context [ ?a <=? Z.min ?b ?c ] =>
      destruct (a <=? Z.min b c) eqn:E;
      [ apply Z.leb_le in E | apply Z.leb_gt in E ]
  end.

(** Split a boolean conjunction met as a hypothesis. *)
Ltac split_andb H H1 H2 :=
  apply andb_true_iff in H; destruct H as [H1 H2].

Lemma ceil_div_bounds (a b : Z) :
  0 < b -> (ceil_div a b - 1) * b < a <= ceil_div a b * b.
Proof.
  intros Hb. unfold ceil_div.
  pose proof (Z.div_mod (a + b - 1) b ltac:(lia)) as E.
  pose proof (Z.mod_pos_bound (a + b - 1) b Hb) as B.
  nia.
Qed.

Lemma ceil_div_unique (a b q : Z) :
  0 < b -> (q - 1) * b < a <= q * b -> ceil_div a b = q.
Proof.
  intros Hb H. pose proof (ceil_div_bounds a b Hb) as B. nia.
Qed.

Lemma timer_delay_pos (d : Z) : 1 <= timer_delay d.
Proof.
  unfold timer_delay.
  destruct (1 <=? d) eqn:E; simpl; [ | lia ].
  destruct (d <=? 2147483647); lia.
Qed.

Lemma blen_nonneg (b : Buffer) : 0 <= blen b.
Proof. unfold blen. lia. Qed.

Lemma slice_inside (b : Buffer) (s e : Z) :
  0 <= s <= e -> e <= blen b ->
  slice b s e = firstn (Z.to_nat (e - s)) (skipn (Z.to_nat s) b).
Proof.
  intros Hs He. unfold slice, norm_index.
  destruct (s <? 0) eqn:E1; [ lia | ].
  destruct (e <? 0) eqn:E2; [ lia | ].
  rewrite !Z.min_l by lia. reflexivity.
Qed.

Lemma slice_length (b : Buffer) (s e : Z) :
  0 <= s <= e -> e <= blen b -> blen (slice b s e) = e - s.
Proof.
  intros Hs He. rewrite slice_inside by assumption.
  unfold blen in *. rewrite length_firstn, length_skipn. lia.
Qed.

Lemma slice_all (b : Buffer) : slice b 0 (blen b) = b.
Proof.
  rewrite slice_inside by (pose proof (blen_nonneg b); lia).
  simpl. unfold blen. rewrite Z.sub_0_r, Nat2Z.id. apply firstn_all.
Qed.

Lemma firstn_plus {A} (a b : nat) (l : list A) :
  firstn (a + b) l = firstn a l ++ firstn b (skipn a l).
Proof.
  revert l. induction a as [ | a IH ]; intros l; [ reflexivity | ].
  destruct l as [ | x l ]; simpl.
  - now rewrite firstn_nil.
  - now rewrite IH.
Qed.

Lemma slice_app (b : Buffer) (s e f : Z) :
  0 <= s <= e -> e <= f -> f <= blen b ->
  slice b s e ++ slice b e f = slice b s f.
Proof.
  intros Hs He Hf. rewrite !slice_inside by lia.
  replace (Z.to_nat (f - s)) with (Z.to_nat (e - s) + Z.to_nat (f - e))%nat by lia.
  rewrite firstn_plus. f_equal.
  rewrite skipn_skipn. f_equal. f_equal. lia.
Qed.

Lemma run_idle (m : Modem) (n : nat) (st : Res) :
  timers st = [] -> run m n st = st.
Proof.
  induction n as [ | n IH ]; intros H; simpl; [ reflexivity | ].
  unfold tick. rewrite H. apply IH, H.
Qed.

Lemma run_add (m : Modem) (a b : nat) (st : Res) :
  run m (a + b) st = run m b (run m a st).
Proof.
  revert st. induction a as [ | a IH ]; intros st; simpl; [ reflexivity | apply IH ].
Qed.

(** ** The drip chain *)

(** The state of a request whose only pending work is the [drip] closure
    over [body] at [offset], due at [t]. *)
Lemma run_chain (m : Modem) (body : Buffer) (k : nat) :
  0 < chunk m ->
  forall o t clk tr w e r ch sc loc disc,
    0 <= o < blen body -> clk <= t ->
    exists clk',
      run m k (mkRes w e r ch sc loc clk disc [mkClosure body o] [mkTimer t 0] tr)
      = mkRes w e r ch sc loc clk' disc
          [mkClosure body (Z.min (o + Z.of_nat k * chunk m) (blen body))]
          (if o + Z.of_nat k * chunk m <? blen body
           then [mkTimer (t + Z.of_nat k * timer_delay (interval m)) 0] else [])
          (tr ++ schedule m k body o t).
Proof.
  intros Hc. induction k as [ | k IH ]; intros o t clk tr w e r ch sc loc disc Ho Ht.
  - exists clk. cbn [run schedule Z.of_nat].
    rewrite Z.mul_0_l, !Z.add_0_r, Z.min_l, app_nil_r by lia.
    destruct (o <? blen body) eqn:E; [ reflexivity | lia ].
  - assert (Hk : 0 <= Z.of_nat k * chunk m) by nia.
    pose proof (timer_delay_pos (interval m)) as Hd.
    rewrite Nat2Z.inj_succ.
    remember (Z.succ (Z.of_nat k)) as K eqn:HK.
    cbn [run]. unfold tick, drip. cbn.
    rewrite (Z.max_r clk t) by lia.
    tick_cases E.
    + assert (Hm : Z.min (o + chunk m) (blen body) = blen body) by lia.
      unfold native_end, emit. cbn. rewrite run_idle by reflexivity.
      exists t. rewrite Hm, Z.min_r by lia.
      destruct (o + K * chunk m <? blen body) eqn:E2;
        [ apply Z.ltb_lt in E2; lia | ].
      rewrite <- app_assoc. reflexivity.
    + assert (Hm : Z.min (o + chunk m) (blen body) = o + chunk m) by lia.
      unfold setTimeout, emit. cbn. rewrite Hm. unfold set_timers. cbn.
      destruct (IH (o + chunk m) (t + timer_delay (interval m)) t
                  ((tr ++ [EvWrite t (slice body o (o + chunk m))])
                     ++ [EvSetTimeout t (interval m)])
                  w e r ch sc loc disc ltac:(lia) ltac:(lia)) as [clk' IH'].
      exists clk'. rewrite IH'.
      replace (o + chunk m + Z.of_nat k * chunk m) with (o + K * chunk m) by lia.
      replace (t + timer_delay (interval m) + Z.of_nat k * timer_delay (interval m))
        with (t + K * timer_delay (interval m)) by lia.
      rewrite <- !app_assoc. reflexivity.
Qed.

Lemma ceil_div_step (a b : Z) : 0 < b -> ceil_div (a + b) b = ceil_div a b + 1.
Proof.
  intros Hb. unfold ceil_div.
  replace (a + b + b - 1) with (a + b - 1 + 1 * b) by lia.
  apply Z.div_add. lia.
Qed.

Lemma ceil_div_one (a b : Z) : 0 < a <= b -> ceil_div a b = 1.
Proof. intros H. apply ceil_div_unique; lia. Qed.

Lemma ceil_div_pos (a b : Z) : 0 < b -> 0 < a -> 1 <= ceil_div a b.
Proof. intros Hb Ha. pose proof (ceil_div_bounds a b Hb). nia. Qed.

Lemma pieces_app (a b : list Event) : pieces (a ++ b) = pieces a ++ pieces b.
Proof. apply flat_map_app. Qed.

Lemma total_delay_app (a b : list Event) :
  total_delay (a ++ b) = total_delay a + total_delay b.
Proof.
  unfold total_delay.
  induction a as [ | x a IH ]; cbn [app fold_right]; [ reflexivity | ].
  rewrite IH. lia.
Qed.

(** The ticks still to come for a cursor at [o]. *)
Lemma schedule_pieces (m : Modem) (body : Buffer) (k : nat) :
  0 < chunk m ->
  forall o t,
    0 <= o < blen body ->
    (Z.to_nat (ceil_div (blen body - o) (chunk m)) <= k)%nat ->
    pieces (schedule m k body o t)
    = map (piece_at m body o) (seq 0 (Z.to_nat (ceil_div (blen body - o) (chunk m)))).
Proof.
  intros Hc. induction k as [ | k IH ]; intros o t Ho Hk.
  - pose proof (ceil_div_pos (blen body - o) (chunk m) Hc ltac:(lia)). lia.
  - cbn [schedule].
    tick_cases E.
    + rewrite ceil_div_one by lia.
      change (Z.to_nat 1) with 1%nat. cbn [seq map pieces flat_map written app].
      unfold piece_at. cbn [Z.of_nat].
      rewrite Z.mul_0_l, Z.add_0_r, Z.add_0_l, Z.mul_1_l. reflexivity.
    + assert (Hm : Z.min (o + chunk m) (blen body) = o + chunk m) by lia.
      rewrite Hm.
      replace (blen body - o) with (blen body - (o + chunk m) + chunk m) in * by lia.
      rewrite ceil_div_step in * by assumption.
      pose proof (ceil_div_pos (blen body - (o + chunk m)) (chunk m) Hc ltac:(lia)) as Hp.
      rewrite Z2Nat.inj_add in * by lia.
      change (Z.to_nat 1) with 1%nat in *.
      rewrite Nat.add_1_r in *. cbn [seq map].
      change (pieces (?a :: ?b :: ?l)) with (written a ++ written b ++ pieces l).
      cbn [written app].
      rewrite IH by lia.
      rewrite <- seq_shift, map_map. f_equal.
      * unfold piece_at. cbn [Z.of_nat].
        rewrite Z.mul_0_l, Z.add_0_r, Z.add_0_l, Z.mul_1_l, Hm. reflexivity.
      * apply map_ext. intros i. unfold piece_at.
        rewrite Nat2Z.inj_succ. f_equal; [ lia | f_equal; lia ].
Qed.

Lemma schedule_concat (m : Modem) (body : Buffer) (k : nat) :
  0 < chunk m ->
  forall o t,
    0 <= o < blen body ->
    concat (pieces (schedule m k body o t))
    = slice body o (Z.min (o + Z.of_nat k * chunk m) (blen body)).
Proof.
  intros Hc. induction k as [ | k IH ]; intros o t Ho.
  - cbn [schedule pieces flat_map concat Z.of_nat].
    rewrite Z.mul_0_l, Z.add_0_r, Z.min_l by lia.
    rewrite slice_inside by lia. rewrite Z.sub_diag. reflexivity.
  - assert (Hk : 0 <= Z.of_nat k * chunk m) by nia.
    rewrite Nat2Z.inj_succ. cbn [schedule].
    tick_cases E.
    + rewrite !Z.min_r by lia. cbn. apply app_nil_r.
    + assert (Hm : Z.min (o + chunk m) (blen body) = o + chunk m) by lia.
      rewrite Hm.
      change (pieces (?a :: ?b :: ?l)) with (written a ++ written b ++ pieces l).
      cbn [written app concat]. rewrite IH by lia.
      replace (o + chunk m + Z.of_nat k * chunk m)
        with (o + Z.succ (Z.of_nat k) * chunk m) by lia.
      apply slice_app; lia.
Qed.

Lemma schedule_delay (m : Modem) (body : Buffer) (k : nat) :
  0 < chunk m ->
  forall o t,
    0 <= o < blen body ->
    (Z.to_nat (ceil_div (blen body - o) (chunk m)) <= k)%nat ->
    total_delay (schedule m k body o t)
    = (ceil_div (blen body - o) (chunk m) - 1) * timer_delay (interval m).
Proof.
  intros Hc. induction k as [ | k IH ]; intros o t Ho Hk.
  - pose proof (ceil_div_pos (blen body - o) (chunk m) Hc ltac:(lia)). lia.
  - cbn [schedule].
    tick_cases E.
    + rewrite ceil_div_one by lia. reflexivity.
    + assert (Hm : Z.min (o + chunk m) (blen body) = o + chunk m) by lia.
      rewrite Hm.
      replace (blen body - o) with (blen body - (o + chunk m) + chunk m) in * by lia.
      rewrite ceil_div_step in * by assumption.
      pose proof (ceil_div_pos (blen body - (o + chunk m)) (chunk m) Hc ltac:(lia)) as Hp.
      change (total_delay (?a :: ?b :: ?l)) with (delay_of a + (delay_of b + total_delay l)).
      rewrite IH by lia. cbn [delay_of]. lia.
Qed.

(** The chain ends with one call of the underlying [end], made by the last
    tick, and no call of it before. *)
Lemma schedule_ends (m : Modem) (body : Buffer) (k : nat) :
  0 < chunk m ->
  forall o t,
    0 <= o < blen body ->
    (Z.to_nat (ceil_div (blen body - o) (chunk m)) <= k)%nat ->
    exists pre,
      schedule m k body o t
      = pre ++ [EvEnd (t + (ceil_div (blen body - o) (chunk m) - 1)
                           * timer_delay (interval m)) None]
      /\ forallb (fun ev => negb (is_end ev)) pre = true.
Proof.
  intros Hc. induction k as [ | k IH ]; intros o t Ho Hk.
  - pose proof (ceil_div_pos (blen body - o) (chunk m) Hc ltac:(lia)). lia.
  - cbn [schedule].
    tick_cases E.
    + rewrite ceil_div_one by lia.
      exists [EvWrite t (slice body o (Z.min (o + chunk m) (blen body)))].
      rewrite Z.sub_diag, Z.mul_0_l, Z.add_0_r. split; reflexivity.
    + assert (Hm : Z.min (o + chunk m) (blen body) = o + chunk m) by lia.
      rewrite Hm.
      replace (blen body - o) with (blen body - (o + chunk m) + chunk m) in * by lia.
      rewrite ceil_div_step in * by assumption.
      pose proof (ceil_div_pos (blen body - (o + chunk m)) (chunk m) Hc ltac:(lia)) as Hp.
      destruct (IH (o + chunk m) (t + timer_delay (interval m)) ltac:(lia) ltac:(lia))
        as (pre & Hpre & Hno).
      exists (EvWrite t (slice body o (o + chunk m)) :: EvSetTimeout t (interval m) :: pre).
      rewrite Hpre. split; [ | exact Hno ].
      cbn [app].
      replace (t + timer_delay (interval m)
               + (ceil_div (blen body - (o + chunk m)) (chunk m) - 1)
                 * timer_delay (interval m))
        with (t + (ceil_div (blen body - (o + chunk m)) (chunk m) + 1 - 1)
                  * timer_delay (interval m)) by lia.
      reflexivity.
Qed.

(** The [i]-th write is made at the [i]-th tick. *)
Lemma schedule_write_times (m : Modem) (body : Buffer) (k : nat) :
  0 < chunk m ->
  forall o t,
    0 <= o < blen body ->
    (Z.to_nat (ceil_div (blen body - o) (chunk m)) <= k)%nat ->
    map time_of (filter is_write (schedule m k body o t))
    = map (fun i => t + Z.of_nat i * timer_delay (interval m))
          (seq 0 (Z.to_nat (ceil_div (blen body - o) (chunk m)))).
Proof.
  intros Hc. induction k as [ | k IH ]; intros o t Ho Hk.
  - pose proof (ceil_div_pos (blen body - o) (chunk m) Hc ltac:(lia)). lia.
  - cbn [schedule].
    tick_cases E.
    + rewrite ceil_div_one by lia.
      change (Z.to_nat 1) with 1%nat. cbn [seq map filter is_write time_of Z.of_nat].
      rewrite Z.mul_0_l, Z.add_0_r. reflexivity.
    + assert (Hm : Z.min (o + chunk m) (blen body) = o + chunk m) by lia.
      rewrite Hm.
      replace (blen body - o) with (blen body - (o + chunk m) + chunk m) in * by lia.
      rewrite ceil_div_step in * by assumption.
      pose proof (ceil_div_pos (blen body - (o + chunk m)) (chunk m) Hc ltac:(lia)) as Hp.
      rewrite Z2Nat.inj_add in * by lia.
      change (Z.to_nat 1) with 1%nat in *.
      rewrite Nat.add_1_r in *.
      cbn [seq map filter is_write time_of Z.of_nat].
      rewrite IH by lia.
      rewrite <- seq_shift, map_map. f_equal.
      * rewrite Z.mul_0_l, Z.add_0_r. reflexivity.
      * apply map_ext. intros i. rewrite Nat2Z.inj_succ. lia.
Qed.

(** ** States of a throttled request *)

Lemma modemThrottle_on (e : Env) (req : Req) (st : Res) :
  throttles e req = true ->
  modemThrottle e req st
  = set_methods WThrottled EThrottled (set_chunks [] (set_redirect RThrottled st)).
Proof.
  unfold throttles, modemThrottle. intros H. split_andb H H1 H2.
  rewrite H1. apply negb_true_iff in H2. rewrite H2. reflexivity.
Qed.

(** Writes on a wrapped response only grow the buffer. *)
Lemma throttled_writes (m : Modem) (ws : list Chunk) :
  forall ch sc loc clk disc cl tm tr r,
  exists ch',
    exec m (map OpWrite ws) (mkRes WThrottled EThrottled r ch sc loc clk disc cl tm tr)
    = mkRes WThrottled EThrottled r ch' sc loc clk disc cl tm tr.
Proof.
  induction ws as [ | c ws IH ]; intros ch sc loc clk disc cl tm tr r.
  - exists ch. reflexivity.
  - cbn [map exec exec_op]. unfold res_write. cbn [write_impl].
    unfold throttled_write. destruct (chunk_truthy (Some c)); apply IH.
Qed.

Lemma buffering_shape (m : Modem) (e : Env) (req : Req) (t0 : Z)
  (disc : option Z) (ws : list Chunk) :
  throttles e req = true ->
  exists ch,
    buffering m e req t0 disc ws
    = mkRes WThrottled EThrottled RThrottled ch 200 None t0 disc [] [] [].
Proof.
  intros H. unfold buffering. rewrite modemThrottle_on by assumption.
  apply throttled_writes.
Qed.

Lemma push_final_shape (c : option Chunk) :
  forall w e r ch sc loc clk disc cl tm tr,
    push_final c (mkRes w e r ch sc loc clk disc cl tm tr)
    = mkRes w e r (chunks (push_final c (mkRes w e r ch sc loc clk disc cl tm tr)))
            sc loc clk disc cl tm tr.
Proof.
  intros. unfold push_final. destruct c as [ c | ]; [ | reflexivity ].
  destruct (chunk_truthy (Some c) && (0 <? chunk_length c)); reflexivity.
Qed.

Lemma end_starts_chain (m : Modem) (c : option Chunk) :
  forall r ch sc loc t0 disc tr,
    let st := mkRes WThrottled EThrottled r ch sc loc t0 disc [] [] tr in
    0 < blen (finalized c st) ->
    res_end m c st
    = mkRes WThrottled EThrottled r (chunks (push_final c st)) sc loc t0 disc
        [mkClosure (finalized c st) 0]
        [mkTimer (t0 + timer_delay (latency m)) 0]
        (tr ++ [EvSetTimeout t0 (latency m)]).
Proof.
  intros r ch sc loc t0 disc tr st H. unfold finalized in *.
  unfold res_end. cbn [end_impl st]. unfold throttled_end.
  fold st. destruct (blen (Buffer_concat (chunks (push_final c st))) =? 0) eqn:E;
    [ apply Z.eqb_eq in E; lia | ].
  unfold st at 1 2 3 4. rewrite push_final_shape. fold st. reflexivity.
Qed.

(** Every state of the drip chain of a throttled request with a body. *)
Lemma drain (m : Modem) (e : Env) (req : Req) (t0 : Z) (disc : option Z)
  (ws : list Chunk) (c : option Chunk) :
  0 < chunk m ->
  throttles e req = true ->
  0 < blen (finalized c (buffering m e req t0 disc ws)) ->
  forall k, exists clk' ch,
    served m e req t0 disc ws c k
    = mkRes WThrottled EThrottled RThrottled ch 200 None clk' disc
        [mkClosure (finalized c (buffering m e req t0 disc ws))
                   (Z.min (Z.of_nat k * chunk m)
                          (blen (finalized c (buffering m e req t0 disc ws))))]
        (if Z.of_nat k * chunk m <? blen (finalized c (buffering m e req t0 disc ws))
         then [mkTimer (t0 + timer_delay (latency m)
                        + Z.of_nat k * timer_delay (interval m)) 0]
         else [])
        (EvSetTimeout t0 (latency m)
         :: schedule m k (finalized c (buffering m e req t0 disc ws)) 0
                     (t0 + timer_delay (latency m))).
Proof.
  intros Hc Hon Hlen k. unfold served.
  destruct (buffering_shape m e req t0 disc ws Hon) as [ch Hst].
  rewrite Hst in *. rewrite end_starts_chain by exact Hlen.
  pose proof (timer_delay_pos (latency m)) as Hl.
  match goal with
  | |- context [ run m k (mkRes ?w ?en ?r ?ch' ?sc ?loc ?clk ?d [mkClosure ?b 0] [mkTimer ?t 0] ?tr) ] =>
      destruct (run_chain m b k Hc 0 t clk tr w en r ch' sc loc d ltac:(lia) ltac:(lia))
        as [clk' Hrun]
  end.
  exists clk'. eexists. rewrite Hrun. rewrite Z.add_0_l. reflexivity.
Qed.

(** ** The claims about the drip *)

(** C1. On a throttled request whose finalized body has length L > 0, the
    drip chain ends after n = ceil(L / CHUNK_SIZE) ticks and stays idle; the
    underlying write has then received exactly n pieces, the i-th being the
    window [i * CHUNK_SIZE, min((i+1) * CHUNK_SIZE, L)) of the body, every
    piece but the last of length CHUNK_SIZE, and their concatenation is the
    body; after k ticks the cursor is min(k * CHUNK_SIZE, L), so it never
    decreases and it is L from tick n on and not before. *)
Theorem drip_delivers_body (e : Env) (req : Req) (t0 : Z) (disc : option Z)
  (ws : list Chunk) (c : option Chunk) :
  throttles e req = true ->
  0 < blen (finalized c (buffering modem56k e req t0 disc ws)) ->
  let body := finalized c (buffering modem56k e req t0 disc ws) in
  let n := Z.to_nat (ceil_div (blen body) CHUNK_SIZE) in
  let out := served modem56k e req t0 disc ws c in
  ((Z.of_nat n - 1) * CHUNK_SIZE < blen body <= Z.of_nat n * CHUNK_SIZE)
  /\ timers (out n) = []
  /\ (forall k, (n <= k)%nat -> out k = out n)
  /\ pieces (trace (out n)) = map (piece_at modem56k body 0) (seq 0 n)
  /\ length (pieces (trace (out n))) = n
  /\ (forall i, (i + 1 < n)%nat -> blen (nth i (pieces (trace (out n))) []) = CHUNK_SIZE)
  /\ concat (pieces (trace (out n))) = body
  /\ (forall k, cursor (out k) = Z.min (Z.of_nat k * CHUNK_SIZE) (blen body))
  /\ (forall k, cursor (out k) <= cursor (out (S k)))
  /\ (forall k, cursor (out k) = blen body <-> (n <= k)%nat).
Proof.
  intros Hon Hlen body n out.
  assert (Hc : 0 < chunk modem56k) by reflexivity.
  change CHUNK_SIZE with (chunk modem56k).
  pose proof (ceil_div_bounds (blen body) (chunk modem56k) Hc) as Hb.
  pose proof (ceil_div_pos (blen body) (chunk modem56k) Hc Hlen) as Hp.
  change (0 < blen body) in Hlen.
  assert (Hn' : n = Z.to_nat (ceil_div (blen body - 0) (chunk modem56k)))
    by (rewrite Z.sub_0_r; reflexivity).
  clearbody n.
  assert (Hn : Z.of_nat n = ceil_div (blen body) (chunk modem56k))
    by (rewrite Z.sub_0_r in Hn'; lia).
  pose proof (drain modem56k e req t0 disc ws c Hc Hon Hlen) as D.
  fold body in D. fold out in D.
  assert (Hcur : forall k, cursor (out k) = Z.min (Z.of_nat k * chunk modem56k) (blen body)).
  { intros k. destruct (D k) as (clk' & ch & Hk). rewrite Hk. reflexivity. }
  assert (Htr : pieces (trace (out n)) = map (piece_at modem56k body 0) (seq 0 n)).
  { destruct (D n) as (clk' & ch & Hk). rewrite Hk. cbn [trace].
    change (pieces (?a :: ?l)) with (written a ++ pieces l). cbn [written app].
    rewrite schedule_pieces by (rewrite <- ?Hn'; lia).
    rewrite <- Hn'. reflexivity. }
  assert (Hidle : timers (out n) = []).
  { destruct (D n) as (clk' & ch & Hk). rewrite Hk. cbn [timers].
    destruct (Z.of_nat n * chunk modem56k <? blen body) eqn:E;
      [ apply Z.ltb_lt in E; lia | reflexivity ]. }
  split; [ lia | ].
  split; [ exact Hidle | ].
  split.
  { intros k Hk. replace k with (n + (k - n))%nat by lia.
    unfold out, served. rewrite run_add. apply run_idle. exact Hidle. }
  split; [ exact Htr | ].
  split; [ rewrite Htr, length_map, length_seq; reflexivity | ].
  split.
  { intros i Hi. rewrite Htr.
    rewrite (nth_indep _ [] (piece_at modem56k body 0 0))
      by (rewrite length_map, length_seq; lia).
    rewrite (map_nth (piece_at modem56k body 0)), seq_nth by lia.
    unfold piece_at. cbn [Nat.add]. rewrite Z.add_0_l.
    rewrite Z.min_l by nia.
    rewrite slice_length by nia. lia. }
  split.
  { destruct (D n) as (clk' & ch & Hk). rewrite Hk. cbn [trace].
    change (pieces (?a :: ?l)) with (written a ++ pieces l). cbn [written app].
    rewrite schedule_concat by lia.
    rewrite Z.add_0_l, Z.min_r by lia. apply slice_all. }
  split; [ exact Hcur | ].
  split.
  { intros k. rewrite !Hcur, Nat2Z.inj_succ. lia. }
  intros k. rewrite Hcur. split; intros H.
  - apply Nat2Z.inj_le. nia.
  - apply Nat2Z.inj_le in H. nia.
Qed.

(** C2, as the code has it. The delays asked of [setTimeout] along the
    chain of a body of length L > 0 add up to
    MODEM_LATENCY + (ceil(L / CHUNK_SIZE) - 1) * CHUNK_INTERVAL: the first
    tick fires when the latency has elapsed, tick i (from 0) fires
    i * CHUNK_INTERVAL later, and the underlying [end] is called by the last
    tick, (ceil(L / CHUNK_SIZE) - 1) * CHUNK_INTERVAL after the first. *)
Theorem drip_timing (e : Env) (req : Req) (t0 : Z) (disc : option Z)
  (ws : list Chunk) (c : option Chunk) :
  throttles e req = true ->
  0 < blen (finalized c (buffering modem56k e req t0 disc ws)) ->
  let body := finalized c (buffering modem56k e req t0 disc ws) in
  let ticks := ceil_div (blen body) CHUNK_SIZE in
  let tr := trace (served modem56k e req t0 disc ws c (Z.to_nat ticks)) in
  total_delay tr = MODEM_LATENCY + (ticks - 1) * CHUNK_INTERVAL
  /\ map time_of (filter is_write tr)
     = map (fun i => t0 + MODEM_LATENCY + Z.of_nat i * CHUNK_INTERVAL)
           (seq 0 (Z.to_nat ticks))
  /\ exists pre,
       tr = EvSetTimeout t0 MODEM_LATENCY
            :: pre ++ [EvEnd (t0 + MODEM_LATENCY + (ticks - 1) * CHUNK_INTERVAL) None]
       /\ forallb (fun ev => negb (is_end ev)) pre = true.
Proof.
  intros Hon Hlen body ticks tr.
  assert (Hc : 0 < chunk modem56k) by reflexivity.
  destruct (drain modem56k e req t0 disc ws c Hc Hon Hlen (Z.to_nat ticks))
    as (clk' & ch & Hk).
  fold body in Hk. change (0 < blen body) in Hlen.
  assert (Ht : ticks = ceil_div (blen body - 0) (chunk modem56k))
    by (rewrite Z.sub_0_r; reflexivity).
  clearbody ticks body. unfold tr. rewrite Hk. cbn [trace]. clear tr Hk.
  change (timer_delay (latency modem56k)) with MODEM_LATENCY.
  assert (Hd : timer_delay (interval modem56k) = CHUNK_INTERVAL) by reflexivity.
  split; [ | split ].
  - change (total_delay (?a :: ?l)) with (delay_of a + total_delay l).
    rewrite schedule_delay by (rewrite <- ?Ht; lia).
    rewrite <- Ht, Hd. reflexivity.
  - cbn [filter is_write].
    rewrite schedule_write_times by (rewrite <- ?Ht; lia).
    rewrite <- Ht, Hd. reflexivity.
  - destruct (schedule_ends modem56k body (Z.to_nat ticks) Hc 0 (t0 + MODEM_LATENCY)
                ltac:(lia) ltac:(rewrite <- Ht; lia)) as (pre & Hpre & Hno).
    exists pre. rewrite Hpre, <- Ht, Hd. split; [ reflexivity | exact Hno ].
Qed.

(** C8. A finalized body of 900 bytes: CHUNK_SIZE is 350, so the body leaves
    as the pieces [0, 350), [350, 700), [700, 900) written 120, 170 and 220
    ms after the handler ended the response, and the underlying [end] is
    called at 220 ms. *)
Theorem scenario_900_bytes (e : Env) (req : Req) (t0 : Z) (disc : option Z)
  (ws : list Chunk) (c : option Chunk) :
  throttles e req = true ->
  blen (finalized c (buffering modem56k e req t0 disc ws)) = 900 ->
  let body := finalized c (buffering modem56k e req t0 disc ws) in
  let out := served modem56k e req t0 disc ws c 3 in
  chunk_size_of MODEM_BPS CHUNK_INTERVAL = 350
  /\ CHUNK_SIZE = 350 /\ CHUNK_INTERVAL = 50 /\ MODEM_LATENCY = 120
  /\ trace out
     = [ EvSetTimeout t0 120;
         EvWrite (t0 + 120) (slice body 0 350);
         EvSetTimeout (t0 + 120) 50;
         EvWrite (t0 + 170) (slice body 350 700);
         EvSetTimeout (t0 + 170) 50;
         EvWrite (t0 + 220) (slice body 700 900);
         EvEnd (t0 + 220) None ]
  /\ map blen (pieces (trace out)) = [350; 350; 200]
  /\ timers out = [].
Proof.
  intros Hon Hlen body out.
  assert (Hc : 0 < chunk modem56k) by reflexivity.
  assert (Hpos : 0 < blen (finalized c (buffering modem56k e req t0 disc ws))) by lia.
  destruct (drain modem56k e req t0 disc ws c Hc Hon Hpos 3) as (clk' & ch & Hk).
  fold body in Hk, Hlen. fold out in Hk. clearbody body out.
  assert (Htr : trace out
     = [ EvSetTimeout t0 120;
         EvWrite (t0 + 120) (slice body 0 350);
         EvSetTimeout (t0 + 120) 50;
         EvWrite (t0 + 170) (slice body 350 700);
         EvSetTimeout (t0 + 170) 50;
         EvWrite (t0 + 220) (slice body 700 900);
         EvEnd (t0 + 220) None ]).
  { rewrite Hk. cbn [trace schedule]. rewrite Hlen.
    change (chunk modem56k) with 350.
    change (timer_delay (interval modem56k)) with 50.
    change (timer_delay (latency modem56k)) with 120.
    change (interval modem56k) with 50. change (latency modem56k) with 120.
    cbn [Z.add Z.min Z.compare Pos.compare Pos.compare_cont Pos.add Pos.succ
         Z.leb Pos.add_carry].
    replace (t0 + 120 + 50) with (t0 + 170) by lia.
    replace (t0 + 170 + 50) with (t0 + 220) by lia.
    reflexivity. }
  repeat split; try reflexivity.
  - exact Htr.
  - rewrite Htr. cbn [pieces flat_map written app map].
    rewrite !slice_length by lia. reflexivity.
  - rewrite Hk. cbn [timers]. rewrite Hlen. reflexivity.
Qed.

(** ** Empty bodies, redirects and the bypass *)

(** C3. When the accumulated buffer is empty at the time the wrapped [end]
    is called, the underlying [end] is called at once and with no body:
    it is the only call made, no timer is armed, no closure is created, and
    nothing happens later. *)
Theorem empty_body_ends_at_once (e : Env) (req : Req) (t0 : Z) (disc : option Z)
  (ws : list Chunk) (c : option Chunk) :
  throttles e req = true ->
  blen (finalized c (buffering modem56k e req t0 disc ws)) = 0 ->
  let st := res_end modem56k c (buffering modem56k e req t0 disc ws) in
  trace st = [EvEnd t0 None]
  /\ timers st = []
  /\ closures st = []
  /\ forall k, run modem56k k st = st.
Proof.
  intros Hon Hlen st.
  destruct (buffering_shape modem56k e req t0 disc ws Hon) as [ch Hst].
  assert (Hshape : st = mkRes WThrottled EThrottled RThrottled
                         (chunks (push_final c (buffering modem56k e req t0 disc ws)))
                         200 None t0 disc [] [] [EvEnd t0 None]).
  { unfold st, finalized in *. unfold res_end. rewrite Hst in *. cbn [end_impl].
    unfold throttled_end. rewrite Hlen. cbn [Z.eqb].
    rewrite push_final_shape. reflexivity. }
  rewrite Hshape. repeat split. intros k. apply run_idle. reflexivity.
Qed.

(** C4. A redirect on a throttled response, whatever was written to it
    before: [write] and [end] are the native methods again, the status and
    the Location header are set, and Express's call of [this.end] reaches
    the underlying response at once; it is the only call made, no timer is
    armed, and the buffered chunks are never sent. *)
Theorem redirect_bypasses_throttle (e : Env) (req : Req) (t0 : Z)
  (disc : option Z) (ws : list Chunk) (url : jsstring) :
  throttles e req = true ->
  let st := res_redirect modem56k url (buffering modem56k e req t0 disc ws) in
  write_impl st = WNative
  /\ end_impl st = ENative
  /\ statusCode st = 302
  /\ location st = Some url
  /\ trace st = [EvEnd t0 (option_map to_buffer (redirect_body url))]
  /\ timers st = []
  /\ closures st = []
  /\ forall k, run modem56k k st = st.
Proof.
  intros Hon st.
  destruct (buffering_shape modem56k e req t0 disc ws Hon) as [ch Hst].
  unfold st. rewrite Hst. repeat split.
  intros k. apply run_idle. reflexivity.
Qed.

(** Handlers on an unwrapped response: every operation reaches the
    underlying response when it is issued. *)
Lemma native_exec (m : Modem) (ops : list Op) :
  forall ch sc loc clk disc cl tm tr,
  exists sc' loc',
    exec m ops (mkRes WNative ENative RNative ch sc loc clk disc cl tm tr)
    = mkRes WNative ENative RNative ch sc' loc' clk disc cl tm
            (tr ++ map (passthrough clk) ops).
Proof.
  induction ops as [ | o ops IH ]; intros ch sc loc clk disc cl tm tr.
  - exists sc, loc. cbn [exec map]. rewrite app_nil_r. reflexivity.
  - cbn [exec map].
    assert (Hstep : exists sc1 loc1,
               exec_op m o (mkRes WNative ENative RNative ch sc loc clk disc cl tm tr)
               = mkRes WNative ENative RNative ch sc1 loc1 clk disc cl tm
                       (tr ++ [passthrough clk o])).
    { destruct o as [ c | c | url ].
      - exists sc, loc. reflexivity.
      - exists sc, loc. reflexivity.
      - exists 302, (Some url). reflexivity. }
    destruct Hstep as (sc1 & loc1 & Hstep). rewrite Hstep.
    destruct (IH ch sc1 loc1 clk disc cl tm (tr ++ [passthrough clk o]))
      as (sc' & loc' & H).
    exists sc', loc'. rewrite H, <- app_assoc. reflexivity.
Qed.

(** C5. With [?turbo=1] the middleware leaves the response as it found it:
    whatever the handler does has the effect it has without the middleware;
    on a fresh response the methods stay native, no buffer is filled, no
    timer is armed, and each operation reaches the underlying response
    unchanged at the time it is issued. *)
Theorem turbo_bypass (e : Env) (req : Req) (t0 : Z) (disc : option Z) :
  query_turbo req = VStr (lit "1") ->
  (forall st, modemThrottle e req st = st)
  /\ (forall m ops st, exec m ops (modemThrottle e req st) = exec m ops st)
  /\ forall ops,
       let out := exec modem56k ops (modemThrottle e req (fresh t0 disc)) in
       write_impl out = WNative
       /\ end_impl out = ENative
       /\ chunks out = []
       /\ timers out = []
       /\ trace out = map (passthrough t0) ops.
Proof.
  intros Hq.
  assert (Hid : forall st, modemThrottle e req st = st).
  { intros st. unfold modemThrottle. rewrite Hq.
    destruct (negb (MODEM_MODE e)); reflexivity. }
  split; [ exact Hid | ].
  split; [ intros m ops st; rewrite Hid; reflexivity | ].
  intros ops out. unfold out. rewrite Hid. unfold fresh.
  destruct (native_exec modem56k ops [] 200 None t0 disc [] [] []) as (sc' & loc' & H).
  rewrite H. repeat split.
Qed.

(** ** The connection state is never read *)

Lemma push_final_disconnect (d : option Z) (c : option Chunk) (st : Res) :
  push_final c (set_disconnect d st) = set_disconnect d (push_final c st).
Proof.
  destruct st. unfold push_final. destruct c as [ c | ]; [ | reflexivity ].
  destruct (chunk_truthy (Some c) && (0 <? chunk_length c)); reflexivity.
Qed.

Lemma res_end_disconnect (m : Modem) (d : option Z) (c : option Chunk) (st : Res) :
  res_end m c (set_disconnect d st) = set_disconnect d (res_end m c st).
Proof.
  unfold res_end.
  replace (end_impl (set_disconnect d st)) with (end_impl st) by (destruct st; reflexivity).
  destruct (end_impl st).
  - destruct st. reflexivity.
  - unfold throttled_end. rewrite push_final_disconnect.
    generalize (push_final c st). intros st1. destruct st1.
    cbn [chunks set_disconnect].
    destruct (blen (Buffer_concat chunks0) =? 0); reflexivity.
Qed.

Lemma exec_op_disconnect (m : Modem) (d : option Z) (o : Op) (st : Res) :
  exec_op m o (set_disconnect d st) = set_disconnect d (exec_op m o st).
Proof.
  destruct o as [ c | c | url ]; cbn [exec_op].
  - destruct st as [w en r ch sc loc clk disc cl tm tr].
    unfold res_write, throttled_write. cbn [write_impl set_disconnect].
    destruct w; [ reflexivity | ].
    destruct (chunk_truthy (Some c)); reflexivity.
  - apply res_end_disconnect.
  - unfold res_redirect, throttled_redirect, native_redirect.
    replace (redirect_impl (set_disconnect d st)) with (redirect_impl st)
      by (destruct st; reflexivity).
    destruct (redirect_impl st); rewrite <- res_end_disconnect;
      f_equal; destruct st; reflexivity.
Qed.

Lemma exec_disconnect (m : Modem) (d : option Z) (ops : list Op) :
  forall st, exec m ops (set_disconnect d st) = set_disconnect d (exec m ops st).
Proof.
  induction ops as [ | o ops IH ]; intros st; cbn [exec]; [ reflexivity | ].
  rewrite exec_op_disconnect. apply IH.
Qed.

Lemma modemThrottle_disconnect (e : Env) (req : Req) (d : option Z) (st : Res) :
  modemThrottle e req (set_disconnect d st) = set_disconnect d (modemThrottle e req st).
Proof.
  destruct st. unfold modemThrottle.
  destruct (negb (MODEM_MODE e)); [ reflexivity | ].
  destruct (strict_eq_str (query_turbo req) (lit "1")); reflexivity.
Qed.

Lemma tick_disconnect (m : Modem) (d : option Z) (st : Res) :
  tick m (set_disconnect d st) = set_disconnect d (tick m st).
Proof.
  destruct st as [w en r ch sc loc clk disc cl tm tr].
  unfold tick. cbn [timers set_disconnect].
  destruct tm as [ | t rest ]; [ reflexivity | ].
  unfold drip. cbn.
  destruct (nth_error cl (closure_id t)) as [ c | ]; [ | reflexivity ].
  cbn.
  match goal with
  | |- context [ if ?b then _ else _ ] => destruct b
  end; reflexivity.
Qed.

Lemma run_disconnect (m : Modem) (d : option Z) (k : nat) :
  forall st, run m k (set_disconnect d st) = set_disconnect d (run m k st).
Proof.
  induction k as [ | k IH ]; intros st; cbn [run]; [ reflexivity | ].
  rewrite tick_disconnect. apply IH.
Qed.

Lemma served_disconnect (m : Modem) (e : Env) (req : Req) (t0 : Z)
  (disc : option Z) (ws : list Chunk) (c : option Chunk) (k : nat) :
  served m e req t0 disc ws c k
  = set_disconnect disc (served m e req t0 None ws c k).
Proof.
  unfold served, buffering.
  change (fresh t0 disc) with (set_disconnect disc (fresh t0 None)).
  rewrite modemThrottle_disconnect, exec_disconnect.
  change (res_end m c ?st) with (exec_op m (OpEnd c) st).
  rewrite exec_op_disconnect. apply run_disconnect.
Qed.

(** C7, as the code has it. The drip never looks at the connection: whether
    and when the client disconnects, the response goes through the same
    states, so the ticks that fire after the disconnection make the same
    calls of the underlying write, arm the same timers and move the cursor
    as they do on a live connection. *)
Theorem drip_ignores_disconnect (e : Env) (req : Req) (t0 : Z) (disc : option Z)
  (ws : list Chunk) (c : option Chunk) (k : nat) :
  trace (served modem56k e req t0 disc ws c k)
  = trace (served modem56k e req t0 None ws c k)
  /\ timers (served modem56k e req t0 disc ws c k)
     = timers (served modem56k e req t0 None ws c k)
  /\ cursor (served modem56k e req t0 disc ws c k)
     = cursor (served modem56k e req t0 None ws c k).
Proof.
  rewrite served_disconnect.
  destruct (served modem56k e req t0 None ws c k). repeat split.
Qed.

(** ** The chunk size *)


(** ** The submission handler *)

Lemma trimStart_white (s : jsstring) :
  forallb isWhiteSpace s = true -> trimStart s = [].
Proof.
  induction s as [ | c s IH ]; intros H; [ reflexivity | ].
  cbn [forallb] in H. split_andb H Hc Hs.
  cbn [trimStart]. rewrite Hc. apply IH, Hs.
Qed.

Lemma trim_white (s : jsstring) : forallb isWhiteSpace s = true -> trim s = [].
Proof. intros H. unfold trim. rewrite (trimStart_white s H). reflexivity. Qed.

Lemma blank_trims_to_empty (v : JsVal) :
  blank v = true -> js_trim (js_or v (VStr [])) = Ok [].
Proof.
  destruct v as [ | s | l | ]; cbn [blank]; intros H;
    [ reflexivity | | discriminate | discriminate ].
  destruct s as [ | c s ]; [ reflexivity | ].
  cbn [js_or truthy js_trim]. rewrite trim_white by exact H. reflexivity.
Qed.

Lemma textual_trims (v : JsVal) :
  textual v = true -> exists s, js_trim (js_or v (VStr [])) = Ok s.
Proof.
  destruct v as [ | s | l | ]; cbn [textual]; intros H; [ | | discriminate | discriminate ].
  - exists []. reflexivity.
  - destruct s as [ | c s ]; [ exists []; reflexivity | ].
    exists (trim (c :: s)). reflexivity.
Qed.

(** A blank message among fields that are strings or absent: status 400,
    the error page handed to the response's current [end], nothing stored. *)
Lemma sign_guestbook_blank_message (m : Modem) (e : Env) (req : Req)
  (db : list Entry) (st : Res) :
  textual (body_name req) = true ->
  textual (body_url req) = true ->
  blank (body_message req) = true ->
  post_sign_guestbook m e req db st
  = Ok (res_end m (Some (Str PAGE_MISSING (Some (lit "utf8"))))
              (set_status 400 (location (modemThrottle e req st))
                          (modemThrottle e req st)),
        db).
Proof.
  intros Hn Hu Hm. unfold post_sign_guestbook, sign_guestbook.
  destruct (textual_trims _ Hn) as [name Hname].
  destruct (textual_trims _ Hu) as [url Hurl].
  rewrite Hname, Hurl, (blank_trims_to_empty _ Hm). cbn [bind truthy negb].
  rewrite orb_true_r. reflexivity.
Qed.

(** C9, at a submission the handler mishandles. With the name sent twice the
    parser yields an array, [.trim] is not a function of it, and the handler
    throws before it looks at the empty message: it sets no status, sends no
    page, and leaves the answer to Express's error handling (a 500). *)
Theorem sign_guestbook_two_names_throws (m : Modem) (e : Env)
  (db : list Entry) (st : Res) :
  blank (body_message req_two_names) = true
  /\ post_sign_guestbook m e req_two_names db st = Throw.
Proof. split; reflexivity. Qed.

(** ** Escaping *)

Lemma replaceAll_app (c : N) (rep a b : jsstring) :
  replaceAll c rep (a ++ b) = replaceAll c rep a ++ replaceAll c rep b.
Proof. apply flat_map_app. Qed.

Lemma replace_one (x : N) :
  replaceAll ch_squote (lit "&#039;")
    (replaceAll ch_dquote (lit "&quot;")
      (replaceAll ch_gt (lit "&gt;")
        (replaceAll ch_lt (lit "&lt;")
          (replaceAll ch_amp (lit "&amp;") [x]))))
  = esc x.
Proof.
  unfold esc.
  destruct (N.eqb x ch_amp) eqn:E1;
    [ apply N.eqb_eq in E1; subst x; reflexivity | ].
  destruct (N.eqb x ch_lt) eqn:E2;
    [ apply N.eqb_eq in E2; subst x; reflexivity | ].
  destruct (N.eqb x ch_gt) eqn:E3;
    [ apply N.eqb_eq in E3; subst x; reflexivity | ].
  destruct (N.eqb x ch_dquote) eqn:E4;
    [ apply N.eqb_eq in E4; subst x; reflexivity | ].
  destruct (N.eqb x ch_squote) eqn:E5;
    [ apply N.eqb_eq in E5; subst x; reflexivity | ].
  unfold replaceAll. cbn [flat_map app].
  rewrite E1. cbn [flat_map app]. rewrite E2. cbn [flat_map app].
  rewrite E3. cbn [flat_map app]. rewrite E4. cbn [flat_map app].
  rewrite E5. reflexivity.
Qed.

Lemma replace_all_chars (s : jsstring) :
  replaceAll ch_squote (lit "&#039;")
    (replaceAll ch_dquote (lit "&quot;")
      (replaceAll ch_gt (lit "&gt;")
        (replaceAll ch_lt (lit "&lt;")
          (replaceAll ch_amp (lit "&amp;") s))))
  = flat_map esc s.
Proof.
  induction s as [ | x s IH ]; [ reflexivity | ].
  change (x :: s) with ([x] ++ s).
  rewrite !replaceAll_app, IH, replace_one. reflexivity.
Qed.

Lemma escapeHtml_string (s : jsstring) : escapeHtml (VStr s) = Ok (flat_map esc s).
Proof.
  destruct s as [ | x s ]; [ reflexivity | ].
  unfold escapeHtml. cbn [truthy negb]. rewrite replace_all_chars. reflexivity.
Qed.

Lemma esc_raw_free (x : N) : raw_free (esc x) = true.
Proof.
  unfold esc.
  destruct (N.eqb x ch_amp) eqn:E1; [ reflexivity | ].
  destruct (N.eqb x ch_lt) eqn:E2; [ reflexivity | ].
  destruct (N.eqb x ch_gt) eqn:E3; [ reflexivity | ].
  destruct (N.eqb x ch_dquote) eqn:E4; [ reflexivity | ].
  destruct (N.eqb x ch_squote) eqn:E5; [ reflexivity | ].
  unfold raw_free, is_raw. cbn [forallb]. rewrite E2, E3, E4, E5. reflexivity.
Qed.

Lemma escaped_raw_free (s : jsstring) : raw_free (flat_map esc s) = true.
Proof.
  induction s as [ | x s IH ]; [ reflexivity | ].
  cbn [flat_map]. unfold raw_free in *. rewrite forallb_app, IH, andb_true_r.
  apply esc_raw_free.
Qed.

Lemma escaped_amps (s : jsstring) : amps_begin_entities (flat_map esc s) = true.
Proof.
  induction s as [ | x s IH ]; [ reflexivity | ].
  cbn [flat_map]. unfold esc.
  destruct (N.eqb x ch_amp) eqn:E1; [ cbn; exact IH | ].
  destruct (N.eqb x ch_lt) eqn:E2; [ cbn; exact IH | ].
  destruct (N.eqb x ch_gt) eqn:E3; [ cbn; exact IH | ].
  destruct (N.eqb x ch_dquote) eqn:E4; [ cbn; exact IH | ].
  destruct (N.eqb x ch_squote) eqn:E5; [ cbn; exact IH | ].
  cbn [app amps_begin_entities]. rewrite E1. exact IH.
Qed.

Lemma raw_free_count (c : N) (s : jsstring) :
  is_raw c = true -> raw_free s = true -> count c s = 0%nat.
Proof.
  intros Hc. unfold count, raw_free.
  induction s as [ | x s IH ]; intros H; [ reflexivity | ].
  cbn [forallb] in H. split_andb H Hx Hs.
  cbn [count_occ]. destruct (N.eq_dec x c) as [ -> | _ ].
  - rewrite Hc in Hx. discriminate.
  - apply IH, Hs.
Qed.

Lemma count_app (c : N) (a b : jsstring) :
  count c (a ++ b) = (count c a + count c b)%nat.
Proof. apply count_occ_app. Qed.

Lemma escapeHtml_cases (v : JsVal) :
  (exists out, escapeHtml v = Ok out /\ raw_free out = true
               /\ (truthy v = false -> out = []))
  \/ (textual v = false /\ truthy v = true /\ escapeHtml v = Throw).
Proof.
  destruct v as [ | s | l | ].
  - left. exists []. repeat split.
  - left. exists (flat_map esc s).
    split; [ apply escapeHtml_string | split; [ apply escaped_raw_free | ] ].
    destruct s; [ reflexivity | discriminate ].
  - right. repeat split.
  - right. repeat split.
Qed.

(** C10. [escapeHtml] turns every string into one without a raw [<], [>],
    double or single quote, in which every ampersand starts one of the five
    entities; it returns the empty string for [undefined] and for the empty
    string. [renderEntry] either throws, which takes a field that is not a
    string, or returns the fixed template filled with what [escapeHtml]
    made of the date, the URL, the name, the message and the favorite: the
    page has exactly the markup characters of the empty template. *)
Theorem escapeHtml_neutralises_markup (s : jsstring) (entry : Entry) :
  (exists out, escapeHtml (VStr s) = Ok out
               /\ raw_free out = true /\ amps_begin_entities out = true)
  /\ escapeHtml VUndef = Ok []
  /\ escapeHtml (VStr []) = Ok []
  /\ match renderEntry entry with
     | Ok html =>
         exists d u n msg f,
           escapeHtml (e_date entry) = Ok d
           /\ escapeHtml (e_url entry) = Ok u
           /\ escapeHtml (e_name entry) = Ok n
           /\ escapeHtml (e_message entry) = Ok msg
           /\ escapeHtml (e_favorite entry) = Ok f
           /\ html = entry_page (truthy (e_url entry)) (truthy (e_favorite entry))
                                d u n msg f
           /\ forall c, is_raw c = true ->
                count c html
                = count c (entry_page (truthy (e_url entry))
                                      (truthy (e_favorite entry)) [] [] [] [] [])
     | Throw =>
         textual (e_date entry) && textual (e_url entry) && textual (e_name entry)
         && textual (e_message entry) && textual (e_favorite entry) = false
     end.
Proof.
  split.
  { exists (flat_map esc s).
    split; [ apply escapeHtml_string | ].
    split; [ apply escaped_raw_free | apply escaped_amps ]. }
  split; [ reflexivity | ].
  split; [ reflexivity | ].
  destruct entry as [vn vu vm vf vd]. cbn [e_name e_url e_message e_favorite e_date].
  unfold renderEntry. cbn [e_name e_url e_message e_favorite e_date].
  destruct (escapeHtml_cases vu) as [ (u & Hu & Ru & Zu) | (Tu & Yu & Hu) ];
    [ | rewrite Yu, Hu, Tu; cbn [bind]; rewrite ?andb_false_r; reflexivity ].
  destruct (escapeHtml_cases vn) as [ (n & Hn & Rn & _) | (Tn & _ & Hn) ];
    [ | rewrite Hu, Hn, Tn; destruct (truthy vu); cbn [bind];
        rewrite ?andb_false_r; reflexivity ].
  destruct (escapeHtml_cases vf) as [ (f & Hf & Rf & Zf) | (Tf & Yf & Hf) ];
    [ | rewrite Hu, Hn, Yf, Hf, Tf; destruct (truthy vu); cbn [bind];
        rewrite ?andb_false_r; reflexivity ].
  destruct (escapeHtml_cases vd) as [ (d & Hd & Rd & _) | (Td & _ & Hd) ];
    [ | rewrite Hu, Hn, Hf, Hd, Td; destruct (truthy vu), (truthy vf); cbn [bind];
        reflexivity ].
  destruct (escapeHtml_cases vm) as [ (msg & Hm & Rm & _) | (Tm & _ & Hm) ];
    [ | rewrite Hu, Hn, Hf, Hd, Hm, Tm; destruct (truthy vu), (truthy vf); cbn [bind];
        rewrite ?andb_false_r; reflexivity ].
  rewrite Hu, Hn, Hf, Hd, Hm.
  assert (Hcount : forall c x, is_raw c = true -> raw_free x = true -> count c x = 0%nat)
    by (intros c x Hc Hx; apply raw_free_count; assumption).
  destruct (truthy vu) eqn:Bu, (truthy vf) eqn:Bf; cbn [bind];
    try (rewrite (Zu eq_refl) in * ); try (rewrite (Zf eq_refl) in * );
    exists d, u, n, msg, f; rewrite ?(Zu eq_refl), ?(Zf eq_refl);
    (repeat split; try reflexivity; try assumption);
    intros c Hc; unfold entry_page; rewrite !count_app;
    rewrite ?(Hcount c d Hc Rd), ?(Hcount c u Hc Ru), ?(Hcount c n Hc Rn),
      ?(Hcount c msg Hc Rm), ?(Hcount c f Hc Rf);
    change (count c []) with 0%nat; lia.
Qed.

End Server.

(** ** The claims at concrete inputs *)

(** An instance of C1: a two-byte write followed by a one-byte final chunk. *)
Lemma drip_delivers_body_witness :
  throttles env_default req_plain = true
  /\ 0 < blen (finalized Buffer_from_utf8 (Some (Str (lit "!") None))
                (buffering Buffer_from_utf8 redirect_body_text modem56k env_default
                   req_plain 0 None [Buf [x68; x69]]))
  /\ concat (pieces (trace (served Buffer_from_utf8 redirect_body_text modem56k
                              env_default req_plain 0 None [Buf [x68; x69]]
                              (Some (Str (lit "!") None)) 1)))
     = [x68; x69; x21].
Proof.
  split; [ reflexivity | split; [ reflexivity | ] ].
  exact (proj1 (proj2 (proj2 (proj2 (proj2 (proj2 (proj2
    (drip_delivers_body Buffer_from_utf8 redirect_body_text env_default req_plain
       0 None [Buf [x68; x69]] (Some (Str (lit "!") None)) eq_refl eq_refl)))))))).
Defined.

(** C2 as stated fails. For 900 bytes the delays add up to 220 ms and the
    underlying [end] is called 220 ms after the handler's, 100 ms after
    the first tick, where the formula gives 270; for a single byte the
    underlying [end] is called by the first tick itself, at 120 ms, where
    the formula gives 170. *)
Lemma drip_timing_counterexample :
  trace (served Buffer_from_utf8 redirect_body_text modem56k env_default req_plain
           0 None [] (Some (Buf body900)) 3)
  = [ EvSetTimeout 0 120;
      EvWrite 120 (repeat x2e 350); EvSetTimeout 120 50;
      EvWrite 170 (repeat x2e 350); EvSetTimeout 170 50;
      EvWrite 220 (repeat x2e 200); EvEnd 220 None ]
  /\ total_delay (trace (served Buffer_from_utf8 redirect_body_text modem56k
                           env_default req_plain 0 None [] (Some (Buf body900)) 3))
     = 220
  /\ MODEM_LATENCY + ceil_div 900 CHUNK_SIZE * CHUNK_INTERVAL = 270
  /\ trace (served Buffer_from_utf8 redirect_body_text modem56k env_default req_plain
              0 None [] (Some (Buf [x2e])) 1)
     = [ EvSetTimeout 0 120; EvWrite 120 [x2e]; EvEnd 120 None ]
  /\ MODEM_LATENCY + ceil_div 1 CHUNK_SIZE * CHUNK_INTERVAL = 170.
Proof. repeat split; vm_compute; reflexivity. Qed.

(** An instance of C2 as the code has it: the 900-byte body. *)
Lemma drip_timing_witness :
  throttles env_default req_plain = true
  /\ 0 < blen (finalized Buffer_from_utf8 (Some (Buf body900))
                (buffering Buffer_from_utf8 redirect_body_text modem56k env_default
                   req_plain 0 None []))
  /\ total_delay (trace (served Buffer_from_utf8 redirect_body_text modem56k
                           env_default req_plain 0 None [] (Some (Buf body900))
                           (Z.to_nat (ceil_div (blen (finalized Buffer_from_utf8
                              (Some (Buf body900))
                              (buffering Buffer_from_utf8 redirect_body_text modem56k
                                 env_default req_plain 0 None []))) CHUNK_SIZE))))
     = MODEM_LATENCY
       + (ceil_div (blen (finalized Buffer_from_utf8 (Some (Buf body900))
                           (buffering Buffer_from_utf8 redirect_body_text modem56k
                              env_default req_plain 0 None []))) CHUNK_SIZE - 1)
         * CHUNK_INTERVAL.
Proof.
  split; [ reflexivity | split; [ reflexivity | ] ].
  exact (proj1 (drip_timing Buffer_from_utf8 redirect_body_text env_default req_plain
                  0 None [] (Some (Buf body900)) eq_refl eq_refl)).
Defined.

(** An instance of C8: a body of 900 dots. *)
Lemma scenario_900_bytes_witness :
  throttles env_default req_plain = true
  /\ blen (finalized Buffer_from_utf8 (Some (Buf body900))
             (buffering Buffer_from_utf8 redirect_body_text modem56k env_default
                req_plain 0 None [])) = 900
  /\ map blen (pieces (trace (served Buffer_from_utf8 redirect_body_text modem56k
                                env_default req_plain 0 None []
                                (Some (Buf body900)) 3)))
     = [350; 350; 200].
Proof.
  split; [ reflexivity | split; [ reflexivity | ] ].
  exact (proj1 (proj2 (proj2 (proj2 (proj2 (proj2
    (scenario_900_bytes Buffer_from_utf8 redirect_body_text env_default req_plain
       0 None [] (Some (Buf body900)) eq_refl eq_refl))))))).
Defined.

(** An instance of C3: a handler that writes an empty Buffer and ends with
    an empty string. *)
Lemma empty_body_ends_at_once_witness :
  throttles env_default req_plain = true
  /\ blen (finalized Buffer_from_utf8 (Some (Str [] None))
             (buffering Buffer_from_utf8 redirect_body_text modem56k env_default
                req_plain 0 None [Buf []])) = 0
  /\ trace (res_end Buffer_from_utf8 modem56k (Some (Str [] None))
              (buffering Buffer_from_utf8 redirect_body_text modem56k env_default
                 req_plain 0 None [Buf []]))
     = [EvEnd 0 None].
Proof.
  split; [ reflexivity | split; [ reflexivity | ] ].
  exact (proj1 (empty_body_ends_at_once Buffer_from_utf8 redirect_body_text
                  env_default req_plain 0 None [Buf []] (Some (Str [] None))
                  eq_refl eq_refl)).
Defined.

(** An instance of C4: a redirect to the guestbook after a write. *)
Lemma redirect_bypasses_throttle_witness :
  throttles env_default req_plain = true
  /\ trace (res_redirect Buffer_from_utf8 redirect_body_text modem56k
              (lit "/guestbook.html")
              (buffering Buffer_from_utf8 redirect_body_text modem56k env_default
                 req_plain 0 None [Str (lit "Arrr") None]))
     = [EvEnd 0 (option_map (to_buffer Buffer_from_utf8)
                            (redirect_body_text (lit "/guestbook.html")))].
Proof.
  split; [ reflexivity | ].
  exact (proj1 (proj2 (proj2 (proj2 (proj2
    (redirect_bypasses_throttle Buffer_from_utf8 redirect_body_text env_default
       req_plain 0 None [Str (lit "Arrr") None] (lit "/guestbook.html") eq_refl)))))).
Defined.

(** An instance of C5: a handler that writes and ends. *)
Lemma turbo_bypass_witness :
  query_turbo req_turbo = VStr (lit "1")
  /\ trace (exec Buffer_from_utf8 redirect_body_text modem56k
              [OpWrite (Str (lit "Arrr") None); OpEnd None]
              (modemThrottle env_default req_turbo (fresh 0 None)))
     = map (passthrough Buffer_from_utf8 redirect_body_text 0)
           [OpWrite (Str (lit "Arrr") None); OpEnd None].
Proof.
  split; [ reflexivity | ].
  exact (proj2 (proj2 (proj2 (proj2
    (proj2 (proj2 (turbo_bypass Buffer_from_utf8 redirect_body_text env_default
                     req_turbo 0 None eq_refl))
       [OpWrite (Str (lit "Arrr") None); OpEnd None]))))).
Defined.


(** C7 as stated fails. The client disconnects 130 ms after the handler
    ended a 900-byte response: the ticks at 170 and 220 ms still write their
    pieces, and the tick at 170 ms still arms the next timer. *)
Lemma disconnect_counterexample :
  disconnect (served Buffer_from_utf8 redirect_body_text modem56k env_default
                req_plain 0 (Some 130) [] (Some (Buf body900)) 3)
  = Some 130
  /\ trace (served Buffer_from_utf8 redirect_body_text modem56k env_default
              req_plain 0 (Some 130) [] (Some (Buf body900)) 3)
     = [ EvSetTimeout 0 120;
         EvWrite 120 (repeat x2e 350); EvSetTimeout 120 50;
         EvWrite 170 (repeat x2e 350); EvSetTimeout 170 50;
         EvWrite 220 (repeat x2e 200); EvEnd 220 None ].
Proof. split; vm_compute; reflexivity. Qed.

(** ** The handlers at concrete inputs *)

(** A message of blanks on a throttled request: status 400, nothing stored,
    and the error page of 332 bytes leaves in one piece when the latency
    has elapsed. *)
Example blank_message_throttled :
  match post_sign_guestbook Buffer_from_utf8 redirect_body_text (fun v => v)
          (lit "01/01/1999 - 12:00 AM") modem56k env_default req_blank_message
          [] (fresh 0 None) with
  | Ok (st, db) =>
      statusCode st = 400 /\ db = []
      /\ trace (run Buffer_from_utf8 modem56k 1 st)
         = [EvSetTimeout 0 120; EvWrite 120 (utf8 PAGE_MISSING); EvEnd 120 None]
  | Throw => False
  end.
Proof. vm_compute. repeat split. Qed.

(** The same submission with [?turbo=1]: the page goes out with the call. *)
Example blank_message_turbo :
  match post_sign_guestbook Buffer_from_utf8 redirect_body_text (fun v => v)
          (lit "01/01/1999 - 12:00 AM") modem56k env_default
          req_blank_message_turbo [] (fresh 0 None) with
  | Ok (st, db) =>
      statusCode st = 400 /\ db = []
      /\ trace st = [EvEnd 0 (Some (utf8 PAGE_MISSING))]
  | Throw => False
  end.
Proof. vm_compute. repeat split. Qed.

(** The hostile entry renders with the 13 [<], 13 [>] and 12 double quotes
    of the template, and no single quote. *)
Example hostile_entry_rendered :
  match renderEntry entry_hostile with
  | Ok html =>
      count ch_lt html = 13%nat /\ count ch_gt html = 13%nat
      /\ count ch_dquote html = 12%nat /\ count ch_squote html = 0%nat
      /\ length html = 376%nat
  | Throw => False
  end.
Proof. vm_compute. repeat split. Qed.

(** * The pages and their helpers *)

(** Split a boolean conjunction met as a hypothesis. *)
Ltac andb_split H H1 H2 :=
  apply andb_true_iff in H; destruct H as [H1 H2].

(** ** Decimal text *)

Lemma digits_of_app (f : nat) :
  forall n acc, digits_of f n acc = digits_of f n [] ++ acc.
Proof.
  induction f as [ | f IH ]; intros n acc; [ reflexivity | ].
  cbn [digits_of]. destruct (n <? 10)%N; [ reflexivity | ].
  rewrite (IH _ (_ :: acc)), (IH _ [_]), <- app_assoc. reflexivity.
Qed.

Lemma digits_of_step (f : nat) (n : N) :
  digits_of (S f) n []
  = if (n <? 10)%N then [(48 + n mod 10)%N]
    else digits_of f (n / 10)%N [] ++ [(48 + n mod 10)%N].
Proof.
  cbn [digits_of]. destruct (n <? 10)%N; [ reflexivity | apply digits_of_app ].
Qed.

Lemma fuel_step (f : nat) (n : N) :
  (n < 2 ^ N.of_nat (S f))%N -> (n / 10 < 2 ^ N.of_nat f)%N.
Proof.
  intros H. rewrite Nat2N.inj_succ, N.pow_succ_r' in H.
  apply N.Div0.div_lt_upper_bound. lia.
Qed.

Lemma fuel_enough (n : N) : (n < 2 ^ N.of_nat (S (N.to_nat (N.log2 n))))%N.
Proof.
  rewrite Nat2N.inj_succ, N2Nat.id.
  destruct (N.eq_dec n 0) as [ -> | Hn ]; [ reflexivity | ].
  apply N.log2_spec. lia.
Qed.

Lemma digit_char (n : N) : is_digit (48 + n mod 10) = true.
Proof.
  pose proof (N.mod_upper_bound n 10 ltac:(discriminate)) as H.
  unfold is_digit. remember (n mod 10)%N as r.
  apply andb_true_iff. split; apply N.leb_le; lia.
Qed.

Lemma digits_are_digits (f : nat) :
  forall n, forallb is_digit (digits_of f n []) = true.
Proof.
  induction f as [ | f IH ]; intros n; [ reflexivity | ].
  rewrite digits_of_step. destruct (n <? 10)%N.
  - cbn [forallb]. rewrite digit_char. reflexivity.
  - rewrite forallb_app, IH. cbn [forallb]. rewrite digit_char. reflexivity.
Qed.

Lemma dec_val_app (l r : jsstring) :
  forall a, dec_val a (l ++ r) = dec_val (dec_val a l) r.
Proof.
  induction l as [ | c l IH ]; intros a; [ reflexivity | ].
  cbn [app dec_val]. apply IH.
Qed.

Lemma dec_val_digits (f : nat) :
  forall n, (n < 2 ^ N.of_nat f)%N -> dec_val 0 (digits_of f n []) = n.
Proof.
  induction f as [ | f IH ]; intros n H.
  - cbn in H. cbn. lia.
  - rewrite digits_of_step. destruct (n <? 10)%N eqn:E.
    + apply N.ltb_lt in E. cbn [dec_val]. rewrite N.mod_small by exact E. lia.
    + rewrite dec_val_app, (IH _ (fuel_step f n H)). cbn [dec_val].
      pose proof (N.div_mod n 10 ltac:(discriminate)) as D.
      remember (n / 10)%N as q. remember (n mod 10)%N as r. lia.
Qed.

Lemma digits_length_le (f : nat) :
  forall n k, (n < 10 ^ N.of_nat (S k))%N ->
    (1 <= length (digits_of (S f) n []) <= S k + 0)%nat
    \/ (2 ^ N.of_nat (S f) <= n)%N.
Proof.
  induction f as [ | f IH ]; intros n k H.
  - destruct (n <? 10)%N eqn:E.
    + left. rewrite digits_of_step, E. cbn. lia.
    + right. apply N.ltb_ge in E. cbn. lia.
  - destruct (N.lt_ge_cases n (2 ^ N.of_nat (S (S f)))) as [Hf | Hf]; [ left | right; exact Hf ].
    rewrite digits_of_step. destruct (n <? 10)%N eqn:E; [ cbn; lia | ].
    apply N.ltb_ge in E. rewrite length_app. cbn [length].
    destruct k as [ | k ]; [ cbn in H; lia | ].
    assert (Hk : (n / 10 < 10 ^ N.of_nat (S k))%N).
    { apply N.Div0.div_lt_upper_bound.
      rewrite (Nat2N.inj_succ (S k)), N.pow_succ_r' in H. exact H. }
    destruct (IH (n / 10)%N k Hk) as [Hl | Hbig]; [ lia | ].
    pose proof (fuel_step (S f) n Hf). lia.
Qed.

Lemma digits_length_ge (f : nat) :
  forall n k, (n < 2 ^ N.of_nat f)%N -> (10 ^ N.of_nat k <= n)%N ->
    (S k <= length (digits_of f n []))%nat.
Proof.
  induction f as [ | f IH ]; intros n k Hf H.
  - cbn in Hf. pose proof (N.pow_nonzero 10 (N.of_nat k) ltac:(discriminate)). lia.
  - rewrite digits_of_step. destruct (n <? 10)%N eqn:E.
    + apply N.ltb_lt in E. destruct k as [ | k ]; [ cbn; lia | ].
      rewrite Nat2N.inj_succ, N.pow_succ_r' in H.
      pose proof (N.pow_nonzero 10 (N.of_nat k) ltac:(discriminate)). lia.
    + rewrite length_app. cbn [length].
      destruct k as [ | k ]; [ lia | ].
      assert (Hk : (10 ^ N.of_nat k <= n / 10)%N).
      { rewrite Nat2N.inj_succ, N.pow_succ_r' in H.
        apply N.div_le_lower_bound; [ discriminate | exact H ]. }
      pose proof (IH (n / 10)%N k (fuel_step f n Hf) Hk). lia.
Qed.

Lemma cycle_zeros (n : nat) :
  forall cur, cur = [] \/ cur = lit "0" -> cycle n (lit "0") cur = repeat 48%N n.
Proof.
  induction n as [ | n IH ]; intros cur H; [ reflexivity | ].
  destruct H as [ -> | -> ]; cbn [cycle lit List.map list_ascii_of_string];
    cbn [repeat]; f_equal; apply IH; left; reflexivity.
Qed.

Lemma padStart_zeros (target : Z) (s : jsstring) :
  padStart target (lit "0") s
  = repeat 48%N (Z.to_nat (target - Z.of_nat (length s))) ++ s.
Proof.
  unfold padStart. change (lit "0") with [48%N] at 1.
  destruct (target <=? Z.of_nat (length s)) eqn:E.
  - apply Z.leb_le in E. replace (Z.to_nat _) with 0%nat by lia. reflexivity.
  - rewrite cycle_zeros by (right; reflexivity). reflexivity.
Qed.

Lemma dec_val_zeros (j : nat) (s : jsstring) :
  dec_val 0 (repeat 48%N j ++ s) = dec_val 0 s.
Proof. induction j as [ | j IH ]; [ reflexivity | exact IH ]. Qed.

Lemma digit_cases (c : N) :
  is_digit c = true ->
  In c [48; 49; 50; 51; 52; 53; 54; 55; 56; 57]%N.
Proof.
  unfold is_digit. intros H. andb_split H H1 H2.
  apply N.leb_le in H1, H2. cbn [In].
  assert (c = 48 \/ c = 49 \/ c = 50 \/ c = 51 \/ c = 52 \/ c = 53 \/ c = 54
          \/ c = 55 \/ c = 56 \/ c = 57)%N as D by lia.
  repeat (destruct D as [ <- | D ]; [ tauto | ]). subst c. tauto.
Qed.

(** What holds of the ten digits holds of every digit. *)
Ltac each_digit c H :=
  apply digit_cases in H; cbn [In] in H;
  repeat (destruct H as [ <- | H ]; [ reflexivity | ]); destruct H.

Lemma digit_val_digit (c : N) :
  is_digit c = true -> digit_val 10 c = Some (c - 48)%N.
Proof. intros H. each_digit c H. Qed.

Lemma digit_not_white (c : N) : is_digit c = true -> isWhiteSpace c = false.
Proof. intros H. each_digit c H. Qed.

Lemma digit_not_sign (c : N) :
  is_digit c = true -> N.eqb c 45 || N.eqb c 43 = false.
Proof. intros H. each_digit c H. Qed.

Lemma digit_not_x (c : N) :
  is_digit c = true -> N.eqb c 120 || N.eqb c 88 = false.
Proof. intros H. each_digit c H. Qed.

Lemma parse_all_digits (s : jsstring) :
  forallb is_digit s = true ->
  forall a seen,
    parse_digits 10 s a seen
    = match s with
      | [] => if seen then Some a else None
      | _ :: _ => Some (dec_val a s)
      end.
Proof.
  induction s as [ | c s IH ]; intros H a seen; [ reflexivity | ].
  cbn [forallb] in H. andb_split H Hc Hs.
  cbn [parse_digits dec_val]. rewrite (digit_val_digit c Hc), (IH Hs).
  destruct s; reflexivity.
Qed.

(** [parseInt] reads a non-empty string of decimal digits as the number it
    denotes, leading zeros included. *)
Lemma parseInt_digits (s : jsstring) :
  s <> [] -> forallb is_digit s = true ->
  parseInt (VStr s) = Some (Z.of_N (dec_val 0 s)).
Proof.
  intros Hne H. destruct s as [ | c s ]; [ congruence | ].
  pose proof H as Hall. cbn [forallb] in H. andb_split H Hc Hs.
  unfold parseInt. cbn [ToString trimStart].
  rewrite (digit_not_white c Hc).
  pose proof (digit_not_sign c Hc) as Hsign. rewrite Hsign.
  apply orb_false_iff in Hsign. destruct Hsign as [Hneg _]. rewrite Hneg.
  assert (Hhex : match c :: s with
                 | c0 :: d :: _ => N.eqb c0 48 && (N.eqb d 120 || N.eqb d 88)
                 | _ => false
                 end = false).
  { destruct s as [ | d s ]; [ reflexivity | ].
    cbn [forallb] in Hs. andb_split Hs Hd Hs'.
    rewrite (digit_not_x d Hd). apply andb_false_r. }
  rewrite Hhex. rewrite (parse_all_digits _ Hall). reflexivity.
Qed.

Lemma js_String_nonneg (z : Z) :
  0 <= z -> js_String z = String_of_N (Z.to_N z).
Proof.
  intros H. unfold js_String.
  destruct (z <? 0) eqn:E; [ apply Z.ltb_lt in E; lia | reflexivity ].
Qed.

Lemma String_of_N_value (n : N) : dec_val 0 (String_of_N n) = n.
Proof. apply dec_val_digits, fuel_enough. Qed.

Lemma String_of_N_digits (n : N) : forallb is_digit (String_of_N n) = true.
Proof. apply digits_are_digits. Qed.

Lemma String_of_N_nonempty (n : N) : (1 <= length (String_of_N n))%nat.
Proof.
  unfold String_of_N. rewrite digits_of_step.
  destruct (n <? 10)%N; [ cbn; lia | rewrite length_app; cbn; lia ].
Qed.

Lemma String_of_N_length (n : N) (k : nat) :
  ((n < 10 ^ N.of_nat (S k))%N -> (1 <= length (String_of_N n) <= S k)%nat)
  /\ ((10 ^ N.of_nat k <= n)%N -> (S k <= length (String_of_N n))%nat).
Proof.
  unfold String_of_N. split; intros H.
  - destruct (digits_length_le (N.to_nat (N.log2 n)) n k H) as [Hl | Hbig];
      [ lia | pose proof (fuel_enough n); lia ].
  - apply digits_length_ge; [ apply fuel_enough | exact H ].
Qed.

(** ** The visitor counter *)

Lemma formatCounter_facts (count : Z) :
  0 <= count ->
  forallb is_digit (formatCounter count) = true
  /\ (7 <= length (formatCounter count))%nat
  /\ (count < 10000000 -> length (formatCounter count) = 7%nat)
  /\ (10000000 <= count -> formatCounter count = js_String count)
  /\ parseInt (VStr (formatCounter count)) = Some count.
Proof.
  intros H0. unfold formatCounter.
  rewrite padStart_zeros, js_String_nonneg by exact H0.
  set (n := Z.to_N count). set (s := String_of_N n).
  pose proof (String_of_N_digits n) as Hd. fold s in Hd.
  pose proof (String_of_N_length n 6) as [Hle Hge]. fold s in Hle, Hge.
  assert (Hall : forallb is_digit (repeat 48%N (Z.to_nat (7 - Z.of_nat (length s))) ++ s)
                 = true).
  { rewrite forallb_app, Hd, andb_true_r.
    induction (Z.to_nat (7 - Z.of_nat (length s))) as [ | j IH ]; [ reflexivity | exact IH ]. }
  split; [ exact Hall | ].
  split; [ rewrite length_app, repeat_length; lia | ].
  split.
  { intros Hc. rewrite length_app, repeat_length.
    assert (n < 10 ^ N.of_nat 7)%N by (unfold n; change (10 ^ N.of_nat 7)%N with 10000000%N; lia).
    specialize (Hle H). lia. }
  split.
  { intros Hc.
    assert (10 ^ N.of_nat 6 <= n)%N by (unfold n; change (10 ^ N.of_nat 6)%N with 1000000%N; lia).
    assert (10 ^ N.of_nat 7 <= n)%N by (unfold n; change (10 ^ N.of_nat 7)%N with 10000000%N; lia).
    pose proof (proj2 (String_of_N_length n 7) H1). fold s in H2.
    replace (Z.to_nat (7 - Z.of_nat (length s))) with 0%nat by lia. reflexivity. }
  rewrite parseInt_digits; [ | | exact Hall ].
  - rewrite dec_val_zeros. unfold s. rewrite String_of_N_value. unfold n.
    rewrite Z2N.id by exact H0. reflexivity.
  - intros Hnil. apply (f_equal (@length N)) in Hnil.
    rewrite length_app, repeat_length in Hnil.
    pose proof (String_of_N_nonempty n) as H1. fold s in H1.
    cbn [length] in Hnil. lia.
Qed.

(** X1. The counter shown is the count itself: [formatCounter] writes a
    count from 0 to 2^53 in decimal digits only, at least seven of them and
    exactly seven below ten million, no digit is cut off above, and
    [parseInt] reads the count back from it. *)
Theorem formatCounter_shows_count (count : Z) :
  0 <= count < 2 ^ 53 ->
  forallb is_digit (formatCounter count) = true
  /\ (7 <= length (formatCounter count))%nat
  /\ (count < 10000000 -> length (formatCounter count) = 7%nat)
  /\ (10000000 <= count -> formatCounter count = js_String count)
  /\ parseInt (VStr (formatCounter count)) = Some count.
Proof. intros [H0 _]. apply formatCounter_facts, H0. Qed.

(** ** Placeholders *)

Lemma starts_with_app (p b : jsstring) : starts_with p (p ++ b) = true.
Proof.
  induction p as [ | c p IH ]; [ reflexivity | ].
  cbn [app starts_with]. rewrite N.eqb_refl. exact IH.
Qed.

Lemma starts_with_split (p : jsstring) :
  forall s, starts_with p s = true -> s = p ++ skipn (length p) s.
Proof.
  induction p as [ | c p IH ]; intros s H; [ reflexivity | ].
  destruct s as [ | d s ]; [ discriminate | ].
  cbn [starts_with] in H. andb_split H H1 H2.
  apply N.eqb_eq in H1. subst d. cbn [length skipn app]. f_equal. apply IH, H2.
Qed.

Lemma find_sub_unfold (pat s : jsstring) :
  find_sub pat s
  = if starts_with pat s then Some ([], skipn (length pat) s)
    else match s with
         | [] => None
         | c :: r =>
             match find_sub pat r with
             | Some (a, b) => Some (c :: a, b)
             | None => None
             end
         end.
Proof. destruct s; reflexivity. Qed.

Lemma find_sub_found (pat : jsstring) :
  forall s a b, find_sub pat s = Some (a, b) -> s = a ++ pat ++ b.
Proof.
  induction s as [ | c s IH ]; intros a b H; rewrite find_sub_unfold in H.
  - destruct (starts_with pat []) eqn:E; [ | discriminate ].
    injection H as <- <-. apply (starts_with_split pat [] E).
  - destruct (starts_with pat (c :: s)) eqn:E.
    + injection H as <- <-. apply (starts_with_split pat _ E).
    + destruct (find_sub pat s) as [ [a' b'] | ] eqn:F; [ | discriminate ].
      injection H as <- <-. cbn [app]. f_equal. apply IH. reflexivity.
Qed.

Lemma find_sub_absent (pat : jsstring) :
  forall s, find_sub pat s = None -> forall a b, s <> a ++ pat ++ b.
Proof.
  induction s as [ | c s IH ]; intros H a b Heq; rewrite find_sub_unfold in H.
  - destruct (starts_with pat []) eqn:E; [ discriminate | ].
    destruct a as [ | x a ]; [ | discriminate ].
    cbn [app] in Heq. rewrite Heq, starts_with_app in E. discriminate.
  - destruct (starts_with pat (c :: s)) eqn:E; [ discriminate | ].
    destruct (find_sub pat s) as [ [a' b'] | ] eqn:F; [ discriminate | ].
    destruct a as [ | x a ].
    + cbn [app] in Heq. rewrite Heq, starts_with_app in E. discriminate.
    + cbn [app] in Heq. injection Heq as _ Heq. exact (IH eq_refl a b Heq).
Qed.

Lemma find_sub_first (pat : jsstring) :
  forall s a b, find_sub pat s = Some (a, b) ->
    forall a' b', s = a' ++ pat ++ b' -> (length a <= length a')%nat.
Proof.
  induction s as [ | c s IH ]; intros a b H a' b' Heq; rewrite find_sub_unfold in H.
  - destruct (starts_with pat []) eqn:E; [ | discriminate ].
    injection H as <- <-. cbn. lia.
  - destruct (starts_with pat (c :: s)) eqn:E.
    + injection H as <- <-. cbn. lia.
    + destruct (find_sub pat s) as [ [a0 b0] | ] eqn:F; [ | discriminate ].
      injection H as <- <-.
      destruct a' as [ | x a' ].
      * cbn [app] in Heq. rewrite Heq, starts_with_app in E. discriminate.
      * cbn [app] in Heq. injection Heq as _ Heq.
        pose proof (IH a0 b0 eq_refl a' b' Heq). cbn [length]. lia.
Qed.

(** A replacement text without a dollar is inserted as it is. *)
Lemma expand_plain (matched before after : jsstring) :
  forall rep, forallb (fun c => negb (N.eqb c 36)) rep = true ->
    expand matched before after rep = rep.
Proof.
  induction rep as [ | c rep IH ]; intros H; [ reflexivity | ].
  cbn [forallb] in H. andb_split H Hc Hr. apply negb_true_iff in Hc.
  cbn [expand]. rewrite Hc, (IH Hr). reflexivity.
Qed.

Lemma digits_plain (s : jsstring) :
  forallb is_digit s = true -> forallb (fun c => negb (N.eqb c 36)) s = true.
Proof.
  induction s as [ | c s IH ]; intros H; [ reflexivity | ].
  cbn [forallb] in *. andb_split H Hc Hs. rewrite (IH Hs), andb_true_r.
  each_digit c Hc.
Qed.

Lemma js_String_plain (z : Z) :
  forallb (fun c => negb (N.eqb c 36)) (js_String z) = true.
Proof.
  unfold js_String. destruct (z <? 0); cbn [forallb];
    rewrite ?digits_plain by apply String_of_N_digits; reflexivity.
Qed.

Lemma formatCounter_plain (z : Z) :
  forallb (fun c => negb (N.eqb c 36)) (formatCounter z) = true.
Proof.
  unfold formatCounter. rewrite padStart_zeros, forallb_app, js_String_plain, andb_true_r.
  induction (Z.to_nat _) as [ | j IH ]; [ reflexivity | exact IH ].
Qed.

Lemma round53_exact (z : Z) : Z.abs z < 2 ^ 53 -> round53 z = z.
Proof.
  intros H. unfold round53.
  destruct (Z.abs z <? 2 ^ 53) eqn:E; [ reflexivity | apply Z.ltb_ge in E; lia ].
Qed.

Lemma incrementCounter_exact (file : option Z) :
  0 <= readCounter file -> readCounter file + 1 < 2 ^ 53 ->
  incrementCounter file = (readCounter file + 1, Some (readCounter file + 1)).
Proof.
  intros H0 H1. unfold incrementCounter, js_add.
  rewrite round53_exact by lia. reflexivity.
Qed.

(** X2. While the count stays below 2^53, where adding one is exact, the
    home page is the template with the first visitor-count placeholder
    replaced by the new count, and the file then holds that count; a
    template without the placeholder is sent as it is, and the visit is
    counted all the same. *)
Theorem home_page_counts (index_html : jsstring) (file : option Z) :
  0 <= readCounter file ->
  readCounter file + 1 < 2 ^ 53 ->
  snd (home_page index_html file) = Some (readCounter file + 1)
  /\ match find_sub VISITOR_COUNT index_html with
     | Some (a, b) =>
         index_html = a ++ VISITOR_COUNT ++ b
         /\ (forall a' b', index_html = a' ++ VISITOR_COUNT ++ b' ->
               (length a <= length a')%nat)
         /\ fst (home_page index_html file)
            = a ++ formatCounter (readCounter file + 1) ++ b
     | None =>
         (forall a b, index_html <> a ++ VISITOR_COUNT ++ b)
         /\ fst (home_page index_html file) = index_html
     end.
Proof.
  intros H0 H1. unfold home_page, js_replace.
  rewrite (incrementCounter_exact file H0 H1). cbn [fst snd].
  split; [ reflexivity | ].
  destruct (find_sub VISITOR_COUNT index_html) as [ [a b] | ] eqn:F.
  - split; [ apply find_sub_found, F | ].
    split; [ apply (find_sub_first _ _ _ _ F) | ].
    rewrite expand_plain by apply formatCounter_plain. reflexivity.
  - split; [ apply find_sub_absent, F | reflexivity ].
Qed.

Lemma NoDup_map_on {A B : Type} (g : A -> B) (l : list A) :
  (forall x y, In x l -> In y l -> g x = g y -> x = y) ->
  NoDup l -> NoDup (map g l).
Proof.
  induction l as [ | x l IH ]; intros Hinj Hnd; [ constructor | ].
  inversion Hnd as [ | ? ? Hx Hl ]; subst. cbn [map]. constructor.
  - intros Hin. apply in_map_iff in Hin. destruct Hin as (y & Hy & Hyl).
    apply Hx. rewrite (Hinj x y); [ exact Hyl | left; reflexivity | right; exact Hyl | ].
    symmetry. exact Hy.
  - apply IH; [ | exact Hl ].
    intros a b Ha Hb. apply Hinj; right; assumption.
Qed.

Lemma visits_pages (index_html : jsstring) (n : nat) :
  forall file,
    0 <= readCounter file ->
    readCounter file + Z.of_nat n < 2 ^ 53 ->
    fst (visits index_html n file)
    = map (fun i => js_replace index_html VISITOR_COUNT
                      (formatCounter (readCounter file + 1 + Z.of_nat i)))
          (seq 0 n)
    /\ snd (visits index_html n file)
       = match n with
         | O => file
         | S _ => Some (readCounter file + Z.of_nat n)
         end.
Proof.
  induction n as [ | n IH ]; intros file H0 Hn; [ split; reflexivity | ].
  rewrite Nat2Z.inj_succ in Hn.
  cbn [visits fst snd]. unfold home_page.
  rewrite (incrementCounter_exact file H0) by lia. cbn [fst snd].
  destruct (IH (Some (readCounter file + 1))) as [Hp Hf];
    [ cbn [readCounter]; lia | cbn [readCounter]; lia | ].
  rewrite Hp, Hf. cbn [readCounter]. split.
  - cbn [seq map]. rewrite Z.add_0_r. f_equal.
    rewrite <- seq_shift, map_map. apply map_ext. intros i.
    rewrite Nat2Z.inj_succ. do 2 f_equal. lia.
  - destruct n; f_equal; lia.
Qed.

(** X3. Visitors in a row are counted one by one: the i-th of n requests
    for the home page (from 0) is shown the count before plus i + 1, the
    file ends at the count before plus n, and when the template has the
    placeholder no two of the pages are the same. *)
Theorem visits_are_counted (index_html : jsstring) (n : nat) (file : option Z) :
  0 <= readCounter file ->
  readCounter file + Z.of_nat n < 2 ^ 53 ->
  fst (visits index_html n file)
  = map (fun i => js_replace index_html VISITOR_COUNT
                    (formatCounter (readCounter file + 1 + Z.of_nat i)))
        (seq 0 n)
  /\ (n <> 0%nat -> snd (visits index_html n file) = Some (readCounter file + Z.of_nat n))
  /\ (find_sub VISITOR_COUNT index_html <> None -> NoDup (fst (visits index_html n file))).
Proof.
  intros H0 Hb. destruct (visits_pages index_html n file H0 Hb) as [Hp Hf].
  split; [ exact Hp | ]. split.
  - intros Hn. rewrite Hf. destruct n; [ congruence | reflexivity ].
  - intros Hfound. rewrite Hp. apply NoDup_map_on; [ | apply seq_NoDup ].
    intros i j _ _ Heq. unfold js_replace in Heq.
    destruct (find_sub VISITOR_COUNT index_html) as [ [a b] | ]; [ | congruence ].
    rewrite !expand_plain in Heq by apply formatCounter_plain.
    apply app_inv_head, app_inv_tail in Heq.
    apply (f_equal (fun s => parseInt (VStr s))) in Heq.
    pose proof (formatCounter_facts (readCounter file + 1 + Z.of_nat i) ltac:(lia))
      as (_ & _ & _ & _ & Hi).
    pose proof (formatCounter_facts (readCounter file + 1 + Z.of_nat j) ltac:(lia))
      as (_ & _ & _ & _ & Hj).
    rewrite Hi, Hj in Heq. injection Heq as Heq. lia.
Qed.

(** ** Pages of the guestbook *)

Lemma ceil_tens (n : Z) :
  10 * (Math_ceil_div n ENTRIES_PER_PAGE - 1) < n <= 10 * Math_ceil_div n ENTRIES_PER_PAGE.
Proof.
  unfold Math_ceil_div, ENTRIES_PER_PAGE.
  pose proof (Z.div_mod (- n) 10 ltac:(lia)) as D.
  pose proof (Z.mod_pos_bound (- n) 10 ltac:(lia)) as B.
  remember ((- n) / 10) as q. remember ((- n) mod 10) as r. lia.
Qed.

Lemma total_pages_bounds (n : Z) :
  0 <= n ->
  1 <= total_pages n
  /\ 10 * (total_pages n - 1) <= n <= 10 * total_pages n
  /\ (0 < n -> 10 * (total_pages n - 1) < n).
Proof.
  intros H. unfold total_pages. pose proof (ceil_tens n) as C.
  destruct (Math_ceil_div n ENTRIES_PER_PAGE =? 0) eqn:E;
    [ apply Z.eqb_eq in E | apply Z.eqb_neq in E ]; lia.
Qed.

Lemma current_page_bounds (q : JsVal) (T : Z) :
  1 <= T -> 1 <= current_page q T <= T.
Proof.
  intros HT. unfold current_page.
  repeat match goal with
         | |- context [ if ?b then _ else _ ] =>
             let E := fresh "E" in destruct b eqn:E
         | |- context [ match ?x with Some _ => _ | None => _ end ] => destruct x
         end;
    repeat match goal with
           | H : (_ <? _) = true |- _ => apply Z.ltb_lt in H
           | H : (_ <? _) = false |- _ => apply Z.ltb_ge in H
           end; lia.
Qed.

Lemma firstn_past {A : Type} (w : nat) (l : list A) :
  firstn (Nat.min w (length l)) l = firstn w l.
Proof.
  destruct (Nat.le_ge_cases w (length l)) as [H | H].
  - rewrite Nat.min_l by exact H. reflexivity.
  - rewrite Nat.min_r by exact H. rewrite firstn_all, firstn_all2 by exact H. reflexivity.
Qed.

(** A window that starts at or after 0 is a [skipn] followed by a
    [firstn]. *)
Lemma Array_slice_window {A : Type} (l : list A) (s w : nat) :
  Array_slice l (Z.of_nat s) (Z.of_nat s + Z.of_nat w) = firstn w (skipn s l).
Proof.
  unfold Array_slice, norm_index.
  destruct (Z.of_nat s <? 0) eqn:E1; [ apply Z.ltb_lt in E1; lia | ].
  destruct (Z.of_nat s + Z.of_nat w <? 0) eqn:E2; [ apply Z.ltb_lt in E2; lia | ].
  destruct (Nat.le_ge_cases (length l) s) as [H | H].
  - rewrite (skipn_all2 l H), firstn_nil.
    rewrite !Z.min_r by lia. rewrite Z.sub_diag. reflexivity.
  - rewrite (Z.min_l (Z.of_nat s)) by lia. rewrite Nat2Z.id.
    rewrite <- (firstn_past w (skipn s l)), length_skipn. f_equal. lia.
Qed.

Lemma page_entries_window (entries : list Entry) (k : nat) :
  page_entries entries (Z.of_nat (S k)) = firstn 10 (skipn (k * 10) (rev entries)).
Proof.
  unfold page_entries, ENTRIES_PER_PAGE.
  replace ((Z.of_nat (S k) - 1) * 10) with (Z.of_nat (k * 10)) by lia.
  apply (Array_slice_window (rev entries) (k * 10) 10).
Qed.

Lemma windows_concat {A : Type} (l : list A) (w m : nat) :
  concat (map (fun k => firstn w (skipn (k * w) l)) (seq 0 m)) = firstn (m * w) l.
Proof.
  induction m as [ | m IH ]; [ reflexivity | ].
  rewrite seq_S, map_app, concat_app, IH. cbn [map concat Nat.add].
  rewrite app_nil_r. replace (S m * w)%nat with (m * w + w)%nat by lia.
  symmetry. apply firstn_plus.
Qed.

(** X4. The pages partition the guestbook, newest first: the page chosen
    is always between 1 and the number of pages, every page holds at most
    ten entries and every page but the last exactly ten, and the pages
    from the first to the last, one after the other, are the entries on
    file in reverse order, each entry once. *)
Theorem pages_partition_entries (entries : list Entry) (query_page : JsVal) :
  let n := Z.of_nat (length entries) in
  let T := total_pages n in
  1 <= current_page query_page T <= T
  /\ (forall p, 1 <= p <= T ->
        Z.of_nat (length (page_entries entries p)) = Z.min 10 (n - 10 * (p - 1)))
  /\ concat (map (fun k => page_entries entries (Z.of_nat k)) (seq 1 (Z.to_nat T)))
     = rev entries.
Proof.
  intros n T.
  destruct (total_pages_bounds n ltac:(lia)) as (HT & Hn & _). fold T in HT, Hn.
  split; [ apply current_page_bounds, HT | ]. split.
  - intros p Hp. replace p with (Z.of_nat (S (Z.to_nat (p - 1)))) at 1 by lia.
    rewrite page_entries_window, length_firstn, length_skipn, length_rev.
    unfold n in *. lia.
  - rewrite <- seq_shift, map_map.
    rewrite (map_ext _ (fun k => firstn 10 (skipn (k * 10) (rev entries))))
      by (intros k; apply page_entries_window).
    rewrite windows_concat. apply firstn_all2. rewrite length_rev. unfold n in *. lia.
Qed.

(** X5. Which page a query selects: none when [parseInt] finds no
    number, the first page; otherwise the number read, raised to 1 and
    lowered to the last page. A page given in decimal digits is read in
    full. *)
Theorem page_of_query (entries : list Entry) (query_page : JsVal) :
  let T := total_pages (Z.of_nat (length entries)) in
  current_page query_page T
  = match parseInt query_page with
    | Some p => Z.max 1 (Z.min p T)
    | None => 1
    end
  /\ current_page VUndef T = 1
  /\ current_page (VStr []) T = 1
  /\ forall s, s <> [] -> forallb is_digit s = true ->
       current_page (VStr s) T = Z.max 1 (Z.min (Z.of_N (dec_val 0 s)) T).
Proof.
  intros T.
  destruct (total_pages_bounds (Z.of_nat (length entries)) ltac:(lia)) as (HT & _).
  fold T in HT.
  assert (Hgen : forall q, current_page q T
                           = match parseInt q with
                             | Some p => Z.max 1 (Z.min p T)
                             | None => 1
                             end).
  { intros q. unfold current_page. destruct (parseInt q) as [ p | ].
    - destruct (p =? 0) eqn:E0; [ apply Z.eqb_eq in E0 | apply Z.eqb_neq in E0 ].
      + change (if 1 <? 1 then 1 else 1) with 1.
        destruct (T <? 1) eqn:E; [ apply Z.ltb_lt in E | apply Z.ltb_ge in E ]; lia.
      + destruct (p <? 1) eqn:E1; [ apply Z.ltb_lt in E1 | apply Z.ltb_ge in E1 ].
        * destruct (T <? 1) eqn:E; [ apply Z.ltb_lt in E | apply Z.ltb_ge in E ]; lia.
        * destruct (T <? p) eqn:E; [ apply Z.ltb_lt in E | apply Z.ltb_ge in E ]; lia.
    - change (if 1 <? 1 then 1 else 1) with 1.
      destruct (T <? 1) eqn:E; [ apply Z.ltb_lt in E; lia | reflexivity ]. }
  split; [ apply Hgen | ].
  split; [ rewrite Hgen; reflexivity | ].
  split; [ rewrite Hgen; reflexivity | ].
  intros s Hne Hd. rewrite Hgen, (parseInt_digits s Hne Hd). reflexivity.
Qed.

Lemma page_length (entries : list Entry) (p : Z) :
  1 <= p ->
  Z.of_nat (length (page_entries entries p))
  = Z.max 0 (Z.min 10 (Z.of_nat (length entries) - 10 * (p - 1))).
Proof.
  intros Hp. replace p with (Z.of_nat (S (Z.to_nat (p - 1)))) at 1 by lia.
  rewrite page_entries_window, length_firstn, length_skipn, length_rev. lia.
Qed.

(** X6. The line under the entries agrees with the page above it. It is
    there exactly when the guestbook has more than ten entries, that is
    more than one page. Then its text announces the entries from
    10 (p - 1) + 1 to 10 (p - 1) + the number of entries on the page, out
    of all n, followed by one item for each of the handler's pages, the
    current one in bold and the others as links, and by a link to the next
    page unless the page is the last. The range has as many numbers as the
    page has entries and lies within the entries on file. *)
Theorem pagination_matches_page (entries : list Entry) (query_page : JsVal) :
  let n := Z.of_nat (length entries) in
  let T := total_pages n in
  let p := current_page query_page T in
  (renderPagination n p = [] <-> n <= 10)
  /\ (T = 1 <-> n <= 10)
  /\ range_end n p - range_start p + 1 = Z.of_nat (length (page_entries entries p))
  /\ (0 < n -> 1 <= range_start p <= range_end n p /\ range_end n p <= n)
  /\ (10 < n ->
      renderPagination n p
      = lit "  <p style=" ++ [ch_dquote] ++ lit "text-align: center;" ++ [ch_dquote]
        ++ lit ">" ++ [ch_newline]
        ++ lit "    Showing entries " ++ js_String (10 * (p - 1) + 1)
        ++ lit "-"
        ++ js_String (10 * (p - 1) + Z.of_nat (length (page_entries entries p)))
        ++ lit " of " ++ js_String n ++ lit " | "
        ++ concat
             (map (fun k =>
                     (if Z.of_nat k =? p
                      then lit "<b>Page " ++ js_String (Z.of_nat k) ++ lit "</b> "
                      else (lit "<a href=" ++ [ch_dquote]
                            ++ lit "/guestbook.html?page=" ++ js_String (Z.of_nat k)
                            ++ [ch_dquote] ++ lit ">")
                           ++ js_String (Z.of_nat k) ++ lit "</a> ")
                     ++ (if Z.of_nat k <? T then lit "| " else []))
                  (seq 1 (Z.to_nat T)))
        ++ (if p <? T
            then lit "| "
                 ++ (lit "<a href=" ++ [ch_dquote] ++ lit "/guestbook.html?page="
                     ++ js_String (p + 1) ++ [ch_dquote] ++ lit ">")
                 ++ lit "Next &raquo;</a>"
            else [])
        ++ [ch_newline] ++ lit "  </p>").
Proof.
  intros n T p.
  destruct (total_pages_bounds n ltac:(lia)) as (HT & Hn & Hpos). fold T in HT, Hn, Hpos.
  pose proof (current_page_bounds query_page T HT) as Hp. fold p in Hp.
  pose proof (ceil_tens n) as C.
  assert (HTn : T = 1 <-> n <= 10).
  { unfold T, total_pages in *.
    destruct (Math_ceil_div n ENTRIES_PER_PAGE =? 0) eqn:E;
      [ apply Z.eqb_eq in E | apply Z.eqb_neq in E ]; lia. }
  assert (Hlen : range_end n p - range_start p + 1
                 = Z.of_nat (length (page_entries entries p))).
  { unfold range_end, range_start, ENTRIES_PER_PAGE.
    rewrite page_length by lia. fold n. lia. }
  split; [ | split; [ exact HTn | split; [ exact Hlen | split ] ] ].
  - unfold renderPagination.
    destruct (Math_ceil_div n ENTRIES_PER_PAGE <=? 1) eqn:E;
      [ apply Z.leb_le in E | apply Z.leb_gt in E ].
    + split; [ lia | reflexivity ].
    + split; [ discriminate | lia ].
  - unfold range_end, range_start, ENTRIES_PER_PAGE in *. lia.
  - intros Hbig.
    assert (HT' : Math_ceil_div n ENTRIES_PER_PAGE = T).
    { unfold T, total_pages.
      destruct (Math_ceil_div n ENTRIES_PER_PAGE =? 0) eqn:E;
        [ apply Z.eqb_eq in E; lia | reflexivity ]. }
    unfold renderPagination. rewrite HT'.
    destruct (T <=? 1) eqn:E; [ apply Z.leb_le in E; lia | ].
    replace (10 * (p - 1) + 1) with (range_start p)
      by (unfold range_start, ENTRIES_PER_PAGE; lia).
    replace (10 * (p - 1) + Z.of_nat (length (page_entries entries p)))
      with (range_end n p)
      by (rewrite <- Hlen; unfold range_start, ENTRIES_PER_PAGE; lia).
    reflexivity.
Qed.

(** ** Submissions *)

Lemma trimStart_head (s : jsstring) :
  match trimStart s with
  | [] => True
  | c :: _ => isWhiteSpace c = false
  end.
Proof.
  induction s as [ | c s IH ]; [ exact I | ].
  cbn [trimStart]. destruct (isWhiteSpace c) eqn:E; [ exact IH | exact E ].
Qed.

Lemma trimStart_snoc (x : N) (l : jsstring) :
  isWhiteSpace x = false -> exists l', trimStart (l ++ [x]) = l' ++ [x].
Proof.
  intros Hx. induction l as [ | c l IH ].
  - exists []. cbn. rewrite Hx. reflexivity.
  - cbn [app trimStart]. destruct (isWhiteSpace c); [ exact IH | ].
    exists (c :: l). reflexivity.
Qed.

Lemma trim_clean (s : jsstring) : clean_edges (trim s) = true.
Proof.
  unfold trim, clean_edges. rewrite rev_involutive.
  pose proof (trimStart_head s) as Hs.
  pose proof (trimStart_head (rev (trimStart s))) as Hr.
  destruct (trimStart s) as [ | c t ] eqn:Et; [ reflexivity | ].
  cbn [rev] in *.
  destruct (trimStart_snoc c (rev t) Hs) as [l' Hl]. rewrite Hl in *.
  rewrite rev_app_distr. cbn [rev app]. rewrite Hs. cbn [negb andb].
  destruct (l' ++ [c]) as [ | d u ]; [ reflexivity | ]. rewrite Hr. reflexivity.
Qed.

Lemma trim_of_clean (s : jsstring) : clean_edges s = true -> trim s = s.
Proof.
  unfold clean_edges, trim. intros H. andb_split H H1 H2.
  assert (Hs : trimStart s = s).
  { destruct s as [ | c s ]; [ reflexivity | ].
    apply negb_true_iff in H1. cbn [trimStart]. rewrite H1. reflexivity. }
  rewrite Hs.
  assert (Hr : trimStart (rev s) = rev s).
  { destruct (rev s) as [ | c r ]; [ reflexivity | ].
    apply negb_true_iff in H2. cbn [trimStart]. rewrite H2. reflexivity. }
  rewrite Hr. apply rev_involutive.
Qed.

Lemma trim_text (v : JsVal) :
  js_trim (js_or v (VStr []))
  = if textual v then Ok (trim (text_of v)) else Throw.
Proof.
  destruct v as [ | s | l | ]; [ reflexivity | | reflexivity | reflexivity ].
  destruct s; reflexivity.
Qed.

Lemma truthy_length (s : jsstring) :
  truthy (VStr s) = true -> (1 <= length s)%nat.
Proof. destruct s; [ discriminate | cbn [length]; lia ]. Qed.

(** ** Rendering the entries *)

Lemma escapeHtml_outcome (v : JsVal) :
  (textual v = true /\ exists s, escapeHtml v = Ok s)
  \/ (textual v = false /\ escapeHtml v = Throw).
Proof.
  destruct v as [ | s | l | ].
  - left. split; [ reflexivity | exists []; reflexivity ].
  - left. split; [ reflexivity | ]. rewrite escapeHtml_string. eexists. reflexivity.
  - right. split; reflexivity.
  - right. split; reflexivity.
Qed.

Lemma renderEntry_outcome (entry : Entry) :
  match renderEntry entry with
  | Throw => renderable entry = false
  | Ok _ => renderable entry = true
  end.
Proof.
  destruct entry as [n u msg f d]. unfold renderEntry, renderable.
  cbn [e_name e_url e_message e_favorite e_date].
  destruct (escapeHtml_outcome n) as [(Tn & sn & En) | (Tn & En)];
    destruct (escapeHtml_outcome msg) as [(Tm & sm & Em) | (Tm & Em)];
    destruct (escapeHtml_outcome d) as [(Td & sd & Ed) | (Td & Ed)];
    rewrite Tn, Tm, Td, En, Em, Ed;
    destruct u as [ | [ | cu su ] | lu | ]; cbn [truthy textual];
    rewrite ?escapeHtml_string; cbn [bind andb];
    destruct f as [ | [ | cf sf ] | lf | ]; cbn [truthy textual];
    rewrite ?escapeHtml_string; cbn [bind andb];
    reflexivity.
Qed.

Lemma render_entries_outcome (l : list Entry) :
  match render_entries l with
  | Throw => forallb renderable l = false
  | Ok _ => forallb renderable l = true
  end.
Proof.
  induction l as [ | entry l IH ]; [ reflexivity | ].
  cbn [render_entries forallb].
  pose proof (renderEntry_outcome entry) as He.
  destruct (renderEntry entry); rewrite He; cbn [bind andb]; [ | reflexivity ].
  destruct (render_entries l); exact IH.
Qed.

Lemma forallb_firstn {A : Type} (p : A -> bool) (n : nat) :
  forall l, forallb p l = true -> forallb p (firstn n l) = true.
Proof.
  induction n as [ | n IH ]; intros [ | x l ] H; try reflexivity.
  cbn [firstn forallb] in *. andb_split H Hx Hl. rewrite Hx, (IH l Hl). reflexivity.
Qed.

Lemma forallb_skipn {A : Type} (p : A -> bool) (n : nat) :
  forall l, forallb p l = true -> forallb p (skipn n l) = true.
Proof.
  induction n as [ | n IH ]; intros [ | x l ] H; try reflexivity; try exact H.
  cbn [skipn forallb] in *. andb_split H Hx Hl. exact (IH l Hl).
Qed.

Lemma forallb_rev {A : Type} (p : A -> bool) (l : list A) :
  forallb p (rev l) = forallb p l.
Proof.
  induction l as [ | x l IH ]; [ reflexivity | ].
  cbn [rev forallb]. rewrite forallb_app, IH. cbn [forallb].
  rewrite andb_true_r. apply andb_comm.
Qed.

Lemma page_entries_sound (entries : list Entry) (p : Z) :
  forallb renderable entries = true ->
  forallb renderable (page_entries entries p) = true.
Proof.
  intros H. unfold page_entries, Array_slice.
  apply forallb_firstn, forallb_skipn. rewrite forallb_rev. exact H.
Qed.

(** X7. A broken entry breaks the page it is on, and no other.
    [renderEntry] throws exactly when one of the five fields of the entry
    is an array or an object, neither a string nor absent. The guestbook
    handler throws exactly when such an entry is among those of the page
    selected (ten at most); entries on other pages do not matter, and a
    guestbook whose entries are all text is rendered at every page. *)
Theorem broken_entry_breaks_its_page (guestbook_html : jsstring)
  (query_page : JsVal) (entries : list Entry) :
  (forall entry, renderEntry entry = Throw <-> renderable entry = false)
  /\ (forall entry,
        renderable entry = false
        <-> exists v,
              In v [e_name entry; e_url entry; e_message entry;
                    e_favorite entry; e_date entry]
              /\ (v = VObj \/ exists l, v = VArr l))
  /\ match guestbook_page guestbook_html query_page entries with
     | Throw =>
         forallb renderable
           (page_entries entries
              (current_page query_page (total_pages (Z.of_nat (length entries)))))
         = false
         /\ forallb renderable entries = false
     | Ok _ =>
         forallb renderable
           (page_entries entries
              (current_page query_page (total_pages (Z.of_nat (length entries)))))
         = true
     end.
Proof.
  split.
  { intros entry. pose proof (renderEntry_outcome entry) as H.
    destruct (renderEntry entry); split; intros H'; congruence. }
  split.
  { intros [n u msg f d]. unfold renderable.
    cbn [e_name e_url e_message e_favorite e_date]. split.
    - intros H.
      assert (Hv : forall v, textual v = false -> v = VObj \/ exists l, v = VArr l).
      { intros [ | s | l | ] Hv; try discriminate;
          [ right; exists l; reflexivity | left; reflexivity ]. }
      destruct (textual n) eqn:Tn;
        [ | exists n; split; [ cbn [In]; tauto | apply Hv, Tn ] ].
      destruct (textual u) eqn:Tu;
        [ | exists u; split; [ cbn [In]; tauto | apply Hv, Tu ] ].
      destruct (textual msg) eqn:Tm;
        [ | exists msg; split; [ cbn [In]; tauto | apply Hv, Tm ] ].
      destruct (textual f) eqn:Tf;
        [ | exists f; split; [ cbn [In]; tauto | apply Hv, Tf ] ].
      destruct (textual d) eqn:Td;
        [ discriminate | exists d; split; [ cbn [In]; tauto | apply Hv, Td ] ].
    - intros (v & Hin & Hv).
      assert (Tv : textual v = false)
        by (destruct Hv as [-> | [l ->]]; reflexivity).
      cbn [In] in Hin.
      destruct Hin as [<- | [<- | [<- | [<- | [<- | []]]]]]; rewrite Tv;
        rewrite ?andb_false_r; reflexivity. }
  unfold guestbook_page.
  pose proof (render_entries_outcome
                (page_entries entries
                   (current_page query_page (total_pages (Z.of_nat (length entries))))))
    as H.
  pose proof (page_entries_sound entries
                (current_page query_page (total_pages (Z.of_nat (length entries)))))
    as Hs.
  destruct (render_entries _); cbn [bind]; [ exact H | ].
  split; [ exact H | ].
  destruct (forallb renderable entries); [ | reflexivity ].
  rewrite Hs in H by reflexivity. discriminate.
Qed.

Lemma favoriteLabel_text (v : JsVal) :
  match favoriteLabel v with
  | FavVal r => textual v = true -> textual r = true
  | FavProto key => key = ToString v /\ inherited key = true
  end.
Proof.
  unfold favoriteLabel. destruct (own_label (ToString v)); [ reflexivity | ].
  destruct (inherited (ToString v)) eqn:I; [ split; [ reflexivity | exact I ] | ].
  unfold js_or. destruct (truthy v); [ trivial | reflexivity ].
Qed.

Section Handlers.

Variable Buffer_from : jsstring -> jsstring -> Buffer.
Variable redirect_body : jsstring -> option Chunk.
Variable label_of : JsVal -> JsVal.
Variable today : jsstring.

Lemma res_end_keeps_status (m : Modem) (c : option Chunk) (st : Res) :
  statusCode (res_end Buffer_from m c st) = statusCode st
  /\ location (res_end Buffer_from m c st) = location st.
Proof.
  unfold res_end. destruct (end_impl st); [ destruct st; split; reflexivity | ].
  unfold throttled_end.
  assert (Hp : statusCode (push_final Buffer_from c st) = statusCode st
               /\ location (push_final Buffer_from c st) = location st).
  { unfold push_final. destruct c as [ c | ]; [ | split; reflexivity ].
    destruct (chunk_truthy (Some c) && (0 <? chunk_length c));
      destruct st; split; reflexivity. }
  destruct Hp as [<- <-]. generalize (push_final Buffer_from c st). intros st1.
  destruct (blen (Buffer_concat (chunks st1)) =? 0); destruct st1; split; reflexivity.
Qed.

(** X8. What a submission can do. The handler throws exactly when the
    name, the message or the URL is neither a string nor absent (an array,
    when the form repeats the key). Otherwise it either answers
    400 and leaves the entries alone, or answers with a redirect (302) to
    the guestbook and appends one entry behind those on file: its name
    and message are the trimmed fields, not empty, at most 50 and 1000
    code units long, without white space at either end, and its URL is
    the trimmed field unless that is a bare [http://] or [https://]. *)
Theorem submission_outcomes (m : Modem) (e : Env) (req : Req)
  (db : list Entry) (st : Res) :
  match post_sign_guestbook Buffer_from redirect_body label_of today m e req db st with
  | Throw =>
      textual (body_name req) && textual (body_message req)
      && textual (body_url req) = false
  | Ok (st', db') =>
      textual (body_name req) && textual (body_message req)
      && textual (body_url req) = true
      /\ ((statusCode st' = 400 /\ db' = db)
          \/ (statusCode st' = 302
              /\ location st' = Some (lit "/guestbook.html")
              /\ exists name url message,
                   db' = db ++ [mkEntry (VStr name) (VStr url) (VStr message)
                                        (label_of (js_or (body_favorite req) (VStr [])))
                                        (VStr today)]
                   /\ name = trim (text_of (body_name req))
                   /\ message = trim (text_of (body_message req))
                   /\ (1 <= length name <= 50)%nat
                   /\ (1 <= length message <= 1000)%nat
                   /\ clean_edges name = true
                   /\ clean_edges message = true
                   /\ (url = trim (text_of (body_url req)) \/ url = [])
                   /\ url <> lit "http://" /\ url <> lit "https://"))
  end.
Proof.
  unfold post_sign_guestbook, sign_guestbook. rewrite !trim_text.
  destruct (textual (body_name req)); [ | reflexivity ].
  destruct (textual (body_message req)); [ | reflexivity ].
  destruct (textual (body_url req)); [ | reflexivity ].
  cbn [bind andb].
  set (name := trim (text_of (body_name req))).
  set (message := trim (text_of (body_message req))).
  set (url := trim (text_of (body_url req))).
  set (st0 := modemThrottle e req st).
  destruct (negb (truthy (VStr name)) || negb (truthy (VStr message))) eqn:Eblank.
  { split; [ reflexivity | left ]. split; [ | reflexivity ].
    unfold res_status_send. rewrite (proj1 (res_end_keeps_status _ _ _)).
    destruct st0; reflexivity. }
  destruct ((50 <? Z.of_nat (length name)) || (1000 <? Z.of_nat (length message))) eqn:Elong.
  { split; [ reflexivity | left ]. split; [ | reflexivity ].
    unfold res_status_send. rewrite (proj1 (res_end_keeps_status _ _ _)).
    destruct st0; reflexivity. }
  split; [ reflexivity | right ].
  apply orb_false_iff in Eblank. destruct Eblank as [En Em].
  apply negb_false_iff in En, Em.
  apply orb_false_iff in Elong. destruct Elong as [Ln Lm].
  apply Z.ltb_ge in Ln, Lm.
  assert (Hst : statusCode (res_redirect Buffer_from redirect_body m
                              (lit "/guestbook.html") st0) = 302
                /\ location (res_redirect Buffer_from redirect_body m
                               (lit "/guestbook.html") st0)
                   = Some (lit "/guestbook.html")).
  { unfold res_redirect, throttled_redirect, native_redirect.
    destruct (redirect_impl st0);
      rewrite (proj1 (res_end_keeps_status _ _ _)),
              (proj2 (res_end_keeps_status _ _ _));
      destruct st0; split; reflexivity. }
  split; [ apply Hst | ]. split; [ apply Hst | ].
  eexists name, _, message. split; [ reflexivity | ].
  split; [ reflexivity | ]. split; [ reflexivity | ].
  pose proof (truthy_length name En) as Hn1.
  pose proof (truthy_length message Em) as Hm1.
  split; [ lia | ]. split; [ lia | ].
  split; [ apply trim_clean | ]. split; [ apply trim_clean | ].
  destruct (truthy (VStr url) && negb (jsstring_eqb url (lit "http://"))
            && negb (jsstring_eqb url (lit "https://"))) eqn:Eu.
  - split; [ left; reflexivity | ].
    apply andb_true_iff in Eu. destruct Eu as [Eu E2].
    apply andb_true_iff in Eu. destruct Eu as [_ E1].
    apply negb_true_iff in E1, E2. unfold jsstring_eqb in E1, E2.
    destruct (list_eq_dec N.eq_dec url (lit "http://")); [ discriminate | ].
    destruct (list_eq_dec N.eq_dec url (lit "https://")); [ discriminate | ].
    split; assumption.
  - split; [ right; reflexivity | split; discriminate ].
Qed.

Lemma accepted_entry (m : Modem) (e : Env) (req : Req) (db : list Entry)
  (st st' : Res) (db' : list Entry) :
  post_sign_guestbook Buffer_from redirect_body label_of today m e req db st
  = Ok (st', db') ->
  statusCode st' = 302 ->
  exists name url message,
    db' = db ++ [mkEntry (VStr name) (VStr url) (VStr message)
                         (label_of (js_or (body_favorite req) (VStr [])))
                         (VStr today)].
Proof.
  unfold post_sign_guestbook, sign_guestbook. rewrite !trim_text.
  destruct (textual (body_name req)); [ | discriminate ].
  destruct (textual (body_message req)); [ | discriminate ].
  destruct (textual (body_url req)); [ | discriminate ].
  cbn [bind].
  set (st0 := modemThrottle e req st).
  assert (H400 : forall page, statusCode (res_status_send Buffer_from m 400 page st0) = 400).
  { intros page. unfold res_status_send. rewrite (proj1 (res_end_keeps_status _ _ _)).
    destruct st0; reflexivity. }
  destruct (negb (truthy (VStr _)) || negb (truthy (VStr _))).
  { intros H H302. injection H as <- <-. rewrite H400 in H302. discriminate. }
  destruct ((50 <? _) || (1000 <? _)).
  { intros H H302. injection H as <- <-. rewrite H400 in H302. discriminate. }
  intros H _. injection H as <- <-. eexists _, _, _. reflexivity.
Qed.

(** X9. A favorite given twice is accepted and then breaks the guestbook
    for good. When the form carries the favorite as an array that names no
    game, [favoriteLabel] hands the array back; if the handler accepts the
    submission (302), the array is stored with the entry. Entries are only
    ever added behind it, and whatever is added, every request for the
    page the entry stands on throws in [renderEntry]: the first page at
    once, page k / 10 + 1 (rounded down) once k entries have followed. *)
Theorem repeated_favorite_breaks_guestbook (m : Modem) (e : Env) (req : Req)
  (db : list Entry) (st st' : Res) (db' : list Entry) (l : list jsstring)
  (later : list Entry) (guestbook_html : jsstring) (query_page : JsVal) :
  (forall v r, favoriteLabel v = FavVal r -> label_of v = r) ->
  body_favorite req = VArr l ->
  own_label (join l) = None ->
  inherited (join l) = false ->
  post_sign_guestbook Buffer_from redirect_body label_of today m e req db st
  = Ok (st', db') ->
  statusCode st' = 302 ->
  current_page query_page (total_pages (Z.of_nat (length (db' ++ later))))
  = Z.of_nat (length later / 10) + 1 ->
  guestbook_page guestbook_html query_page (db' ++ later) = Throw.
Proof.
  intros Hlabel Hfav Hown Hinh Hpost H302 Hpage.
  destruct (accepted_entry m e req db st st' db' Hpost H302)
    as (name & url & message & ->).
  rewrite Hfav in *. cbn [js_or truthy] in *.
  assert (Hl : label_of (VArr l) = VArr l).
  { apply Hlabel. unfold favoriteLabel. cbn [ToString]. rewrite Hown, Hinh. reflexivity. }
  rewrite Hl in *.
  unfold guestbook_page. rewrite Hpage.
  match goal with
  | |- context [render_entries ?p] => pose proof (render_entries_outcome p) as H
  end.
  destruct (render_entries _); [ | reflexivity ].
  exfalso. revert H.
  replace (Z.of_nat (length later / 10) + 1)
    with (Z.of_nat (S (length later / 10))) by lia.
  rewrite page_entries_window, !rev_app_distr. cbn [rev app].
  pose proof (Nat.div_mod_eq (length later) 10) as Hdm.
  pose proof (Nat.mod_upper_bound (length later) 10 ltac:(discriminate)) as Hub.
  remember (length later / 10)%nat as k eqn:Hk.
  remember (length later mod 10)%nat as r eqn:Hr.
  rewrite skipn_app, length_rev.
  replace (k * 10 - length later)%nat with 0%nat by lia. cbn [skipn].
  rewrite firstn_app, length_skipn, length_rev.
  replace (10 - (length later - k * 10))%nat with (S (9 - r)) by lia.
  cbn [firstn]. rewrite forallb_app. cbn [forallb].
  unfold renderable at 2.
  cbn [e_name e_url e_message e_favorite e_date textual andb].
  rewrite andb_false_r. discriminate.
Qed.

(** X10. Submissions keep a guestbook of text a guestbook of text. When the
    entries on file are all text and the favorite of the form is a single
    value that [Object.prototype] does not answer to, the entries after
    the submission are all text again, whether it was accepted or not, and
    the guestbook is rendered at every page. *)
Theorem submissions_keep_guestbook_rendering (m : Modem) (e : Env) (req : Req)
  (db : list Entry) (st st' : Res) (db' : list Entry) :
  (forall v r, favoriteLabel v = FavVal r -> label_of v = r) ->
  textual (body_favorite req) = true ->
  inherited (ToString (js_or (body_favorite req) (VStr []))) = false ->
  forallb renderable db = true ->
  post_sign_guestbook Buffer_from redirect_body label_of today m e req db st
  = Ok (st', db') ->
  forallb renderable db' = true
  /\ forall guestbook_html query_page,
       exists page, guestbook_page guestbook_html query_page db' = Ok page.
Proof.
  intros Hlabel Hfav Hinh Hdb Hpost.
  assert (Hdb' : forallb renderable db' = true).
  { revert Hpost. unfold post_sign_guestbook, sign_guestbook. rewrite !trim_text.
    destruct (textual (body_name req)); [ | discriminate ].
    destruct (textual (body_message req)); [ | discriminate ].
    destruct (textual (body_url req)); [ | discriminate ].
    cbn [bind].
    destruct (negb (truthy (VStr _)) || negb (truthy (VStr _)));
      [ intros H; injection H as <- <-; exact Hdb | ].
    destruct ((50 <? _) || (1000 <? _));
      [ intros H; injection H as <- <-; exact Hdb | ].
    intros H. injection H as <- <-.
    rewrite forallb_app, Hdb. cbn [forallb andb]. rewrite andb_true_r.
    unfold renderable. cbn [e_name e_url e_message e_favorite e_date textual andb].
    set (fav := js_or (body_favorite req) (VStr [])) in *.
    assert (Hf : textual fav = true).
    { unfold fav, js_or. destruct (truthy (body_favorite req)); [ exact Hfav | reflexivity ]. }
    pose proof (favoriteLabel_text fav) as Hres.
    destruct (favoriteLabel fav) as [ r | key ] eqn:Er.
    - rewrite (Hlabel fav r Er), (Hres Hf). reflexivity.
    - destruct Hres as [-> Hk]. rewrite Hk in Hinh. discriminate. }
  split; [ exact Hdb' | ]. intros guestbook_html query_page.
  unfold guestbook_page.
  pose proof (render_entries_outcome
                (page_entries db'
                   (current_page query_page (total_pages (Z.of_nat (length db'))))))
    as H.
  destruct (render_entries _); cbn [bind]; [ eexists; reflexivity | ].
  rewrite page_entries_sound in H by exact Hdb'. discriminate.
Qed.

End Handlers.

(** ** More about the throttle *)

Section Throttle.

Variable Buffer_from : jsstring -> jsstring -> Buffer.
Variable redirect_body : jsstring -> option Chunk.

Lemma throttled_writes_chunks (m : Modem) (ws : list Chunk) :
  forall ch sc loc clk disc cl tm tr r,
    exec Buffer_from redirect_body m (map OpWrite ws)
         (mkRes WThrottled EThrottled r ch sc loc clk disc cl tm tr)
    = mkRes WThrottled EThrottled r
        (ch ++ map (to_buffer Buffer_from)
                   (filter (fun w => chunk_truthy (Some w)) ws))
        sc loc clk disc cl tm tr.
Proof.
  induction ws as [ | c ws IH ]; intros ch sc loc clk disc cl tm tr r.
  - cbn [map filter exec]. rewrite app_nil_r. reflexivity.
  - cbn [map exec exec_op filter]. unfold res_write. cbn [write_impl].
    unfold throttled_write. destruct (chunk_truthy (Some c)).
    + unfold set_chunks. cbn. rewrite IH, <- app_assoc. reflexivity.
    + apply IH.
Qed.

(** X11. Writes to a wrapped response are kept, not sent: after any
    writes nothing has reached the underlying response and no timer is
    armed, the buffer holds the bytes of the chunks written, in the order
    of the calls (an empty string leaves no chunk), and the body the
    wrapped [end] assembles is their concatenation followed by the bytes
    of its own chunk, if that is not empty. *)
Theorem writes_are_buffered_in_order (m : Modem) (e : Env) (req : Req) (t0 : Z)
  (disc : option Z) (ws : list Chunk) (c : option Chunk) :
  throttles e req = true ->
  let st := buffering Buffer_from redirect_body m e req t0 disc ws in
  trace st = []
  /\ timers st = []
  /\ chunks st = map (to_buffer Buffer_from)
                     (filter (fun w => chunk_truthy (Some w)) ws)
  /\ finalized Buffer_from c st
     = concat (map (to_buffer Buffer_from)
                   (filter (fun w => chunk_truthy (Some w)) ws))
       ++ match c with
          | Some ch =>
              if chunk_truthy c && (0 <? chunk_length ch)
              then to_buffer Buffer_from ch else []
          | None => []
          end.
Proof.
  intros Hon st. unfold st, buffering.
  rewrite (modemThrottle_on e req _ Hon). unfold fresh, set_redirect, set_chunks, set_methods.
  cbn [write_impl end_impl redirect_impl chunks statusCode location clock
       disconnect closures timers trace].
  rewrite throttled_writes_chunks. cbn [app].
  split; [ reflexivity | ]. split; [ reflexivity | ]. split; [ reflexivity | ].
  unfold finalized, push_final, Buffer_concat.
  destruct c as [ ch | ]; [ | cbn [chunks]; rewrite app_nil_r; reflexivity ].
  destruct (chunk_truthy (Some ch) && (0 <? chunk_length ch)).
  - cbn [chunks set_chunks]. rewrite concat_app. cbn [concat].
    rewrite app_nil_r. reflexivity.
  - cbn [chunks]. rewrite app_nil_r. reflexivity.
Qed.

(** X12. With modem mode off (on Vercel, or with [MODEM_MODE=false]) no
    request is throttled, whatever its query: the middleware leaves the
    response alone, every operation of the handler reaches the underlying
    response when it is issued, no timer is armed, and no cache header is
    set. *)
Theorem modem_mode_off (m : Modem) (e : Env) (req : Req) (t0 : Z)
  (disc : option Z) (ops : list Op) (url : jsstring) :
  truthy (env_VERCEL e) = true \/ env_MODEM_MODE e = VStr (lit "false") ->
  MODEM_MODE e = false
  /\ (forall st, modemThrottle e req st = st)
  /\ trace (exec Buffer_from redirect_body m ops (modemThrottle e req (fresh t0 disc)))
     = map (passthrough Buffer_from redirect_body t0) ops
  /\ timers (exec Buffer_from redirect_body m ops (modemThrottle e req (fresh t0 disc)))
     = []
  /\ cache_headers e url = [].
Proof.
  intros H.
  assert (Hoff : MODEM_MODE e = false).
  { unfold MODEM_MODE, IS_VERCEL. destruct H as [H | H]; rewrite H;
      [ reflexivity | apply andb_false_r ]. }
  assert (Hid : forall st, modemThrottle e req st = st)
    by (intros st; unfold modemThrottle; rewrite Hoff; reflexivity).
  split; [ exact Hoff | ]. split; [ exact Hid | ].
  rewrite Hid. unfold fresh.
  destruct (native_exec Buffer_from redirect_body m ops [] 200 None t0 disc [] [] [])
    as (sc' & loc' & Hx).
  rewrite Hx. split; [ reflexivity | ]. split; [ reflexivity | ].
  unfold cache_headers. rewrite Hoff. reflexivity.
Qed.

(** X13. The drip does its work at every positive chunk size, not only at
    350 bytes: for any latency and interval, a body of length L > 0 is
    written in ceil(L / chunk) pieces, the consecutive windows of the
    body, whose concatenation is the body; then no timer is left, and the
    delays asked of [setTimeout] add up to the latency and one interval
    per piece but the first. *)
Theorem drip_at_any_chunk_size (m : Modem) (e : Env) (req : Req) (t0 : Z)
  (disc : option Z) (ws : list Chunk) (c : option Chunk) :
  0 < chunk m ->
  throttles e req = true ->
  0 < blen (finalized Buffer_from c (buffering Buffer_from redirect_body m e req t0 disc ws)) ->
  let body := finalized Buffer_from c
                (buffering Buffer_from redirect_body m e req t0 disc ws) in
  let ticks := ceil_div (blen body) (chunk m) in
  let out := served Buffer_from redirect_body m e req t0 disc ws c (Z.to_nat ticks) in
  (ticks - 1) * chunk m < blen body <= ticks * chunk m
  /\ timers out = []
  /\ pieces (trace out) = map (piece_at m body 0) (seq 0 (Z.to_nat ticks))
  /\ concat (pieces (trace out)) = body
  /\ total_delay (trace out)
     = timer_delay (latency m) + (ticks - 1) * timer_delay (interval m).
Proof.
  intros Hc Hon Hlen body ticks out.
  pose proof (ceil_div_bounds (blen body) (chunk m) Hc) as Hb. fold ticks in Hb.
  pose proof (ceil_div_pos (blen body) (chunk m) Hc Hlen) as Hp. fold ticks in Hp.
  destruct (drain Buffer_from redirect_body m e req t0 disc ws c Hc Hon Hlen
              (Z.to_nat ticks)) as (clk' & ch & Hk).
  fold body in Hk. fold out in Hk. change (0 < blen body) in Hlen.
  assert (Ht : ticks = ceil_div (blen body - 0) (chunk m))
    by (rewrite Z.sub_0_r; reflexivity).
  clearbody ticks body out. rewrite Hk. cbn [trace timers].
  split; [ exact Hb | ]. split.
  { destruct (Z.of_nat (Z.to_nat ticks) * chunk m <? blen body) eqn:E;
      [ apply Z.ltb_lt in E; lia | reflexivity ]. }
  split.
  { change (pieces (?a :: ?l)) with (written a ++ pieces l). cbn [written app].
    rewrite schedule_pieces by (rewrite <- ?Ht; lia). rewrite <- Ht. reflexivity. }
  split.
  { change (pieces (?a :: ?l)) with (written a ++ pieces l). cbn [written app].
    rewrite schedule_concat by lia.
    rewrite Z.add_0_l, Z.min_r by lia. apply slice_all. }
  change (total_delay (?a :: ?l)) with (delay_of a + total_delay l).
  rewrite schedule_delay by (rewrite <- ?Ht; lia).
  rewrite <- Ht. reflexivity.
Qed.

Lemma slice_length_only (b1 b2 : Buffer) (s e : Z) :
  blen b1 = blen b2 -> length (slice b1 s e) = length (slice b2 s e).
Proof.
  intros H. unfold slice. rewrite H, !length_firstn, !length_skipn.
  unfold blen in H. lia.
Qed.

Lemma schedule_outline (m : Modem) (b1 b2 : Buffer) (k : nat) :
  blen b1 = blen b2 ->
  forall o t, map outline (schedule m k b1 o t) = map outline (schedule m k b2 o t).
Proof.
  intros H. induction k as [ | k IH ]; intros o t; [ reflexivity | ].
  cbn [schedule]. rewrite H.
  destruct (blen b2 <=? Z.min (o + chunk m) (blen b2));
    cbn [map outline]; rewrite ?IH;
    rewrite (slice_length_only b1 b2 _ _ H); reflexivity.
Qed.

Lemma end_of_empty (m : Modem) (e : Env) (req : Req) (t0 : Z) (disc : option Z)
  (ws : list Chunk) (c : option Chunk) (k : nat) :
  throttles e req = true ->
  blen (finalized Buffer_from c (buffering Buffer_from redirect_body m e req t0 disc ws)) = 0 ->
  trace (served Buffer_from redirect_body m e req t0 disc ws c k) = [EvEnd t0 None].
Proof.
  intros Hon Hlen. unfold served.
  destruct (buffering_shape Buffer_from redirect_body m e req t0 disc ws Hon) as [ch Hst].
  unfold finalized in Hlen. rewrite Hst in *.
  unfold res_end. cbn [end_impl]. unfold throttled_end. rewrite Hlen. cbn [Z.eqb].
  rewrite push_final_shape. unfold native_end, emit.
  cbn [write_impl end_impl redirect_impl chunks statusCode location clock
       disconnect closures timers trace option_map app].
  rewrite run_idle by reflexivity. reflexivity.
Qed.

(** X14. The throttle looks at sizes only. Two responses whose bodies have
    the same length, whatever their bytes and however the handler cut
    them into writes, leave in the same number of pieces, of the same
    sizes, at the same times, and are ended at the same time. *)
Theorem same_size_same_schedule (m : Modem) (e : Env) (req : Req) (t0 : Z)
  (disc : option Z) (ws1 ws2 : list Chunk) (c1 c2 : option Chunk) (k : nat) :
  0 < chunk m ->
  throttles e req = true ->
  blen (finalized Buffer_from c1 (buffering Buffer_from redirect_body m e req t0 disc ws1))
  = blen (finalized Buffer_from c2 (buffering Buffer_from redirect_body m e req t0 disc ws2)) ->
  map outline (trace (served Buffer_from redirect_body m e req t0 disc ws1 c1 k))
  = map outline (trace (served Buffer_from redirect_body m e req t0 disc ws2 c2 k)).
Proof.
  intros Hc Hon Hlen.
  pose proof (blen_nonneg (finalized Buffer_from c1
                (buffering Buffer_from redirect_body m e req t0 disc ws1))) as H0.
  destruct (Z.eq_dec (blen (finalized Buffer_from c1
                (buffering Buffer_from redirect_body m e req t0 disc ws1))) 0) as [Hz | Hz].
  - rewrite !end_of_empty by (assumption || lia). reflexivity.
  - destruct (drain Buffer_from redirect_body m e req t0 disc ws1 c1 Hc Hon ltac:(lia) k)
      as (clk1 & ch1 & H1).
    destruct (drain Buffer_from redirect_body m e req t0 disc ws2 c2 Hc Hon ltac:(lia) k)
      as (clk2 & ch2 & H2).
    rewrite H1, H2. cbn [trace map outline]. f_equal.
    apply schedule_outline, Hlen.
Qed.

End Throttle.

(** ** Escaping, labels and headers *)

Lemma esc_nonempty (x : N) (r : jsstring) : esc x ++ r <> [].
Proof.
  unfold esc.
  repeat match goal with
         | |- context [N.eqb x ?k] => destruct (N.eqb x k)
         end; discriminate.
Qed.

Ltac eqb_case c k :=
  let E := fresh "E" in
  destruct (N.eqb c k) eqn:E; [ apply N.eqb_eq in E | apply N.eqb_neq in E ].

Lemma esc_head (x y : N) (A B : jsstring) :
  esc x ++ A = esc y ++ B -> x = y /\ A = B.
Proof.
  unfold esc, ch_amp, ch_lt, ch_gt, ch_dquote, ch_squote. intros H.
  eqb_case x 38%N;
    [ | eqb_case x 60%N; [ | eqb_case x 62%N; [ | eqb_case x 34%N;
      [ | eqb_case x 39%N ] ] ] ];
    (eqb_case y 38%N;
     [ | eqb_case y 60%N; [ | eqb_case y 62%N; [ | eqb_case y 34%N;
       [ | eqb_case y 39%N ] ] ] ]);
    subst; cbn in H; try discriminate;
    injection H; intros; subst; try contradiction;
    split; reflexivity.
Qed.

Lemma esc_injective (a : jsstring) :
  forall b, flat_map esc a = flat_map esc b -> a = b.
Proof.
  induction a as [ | x a IH ]; intros [ | y b ] H.
  - reflexivity.
  - cbn [flat_map] in H. symmetry in H. destruct (esc_nonempty _ _ H).
  - cbn [flat_map] in H. destruct (esc_nonempty _ _ H).
  - cbn [flat_map] in H. apply esc_head in H. destruct H as [-> H].
    f_equal. apply IH, H.
Qed.

(** X15. Escaping loses nothing: two different texts never have the same
    escaped form, so what a visitor wrote can be read back from the page. *)
Theorem escapeHtml_is_injective (a b : jsstring) :
  escapeHtml (VStr a) = escapeHtml (VStr b) -> a = b.
Proof.
  rewrite !escapeHtml_string. intros H. injection H as H.
  apply esc_injective, H.
Qed.

Lemma jsstring_eqb_eq (a b : jsstring) : jsstring_eqb a b = true -> a = b.
Proof.
  unfold jsstring_eqb. destruct (list_eq_dec N.eq_dec a b); [ trivial | discriminate ].
Qed.

(** X16. The label of the favorite game, read off the text of the value
    as a property name. The three codes become the full titles. A name
    that [Object.prototype] answers to gives that member instead of a
    text. Every other value passes unchanged, an absent or empty one as
    the empty string. A label is never itself a code: resolving it again
    changes nothing, and a string or an absent value that resolves to a
    value resolves to a string. *)
Theorem favoriteLabel_resolves (value : JsVal) :
  (ToString value = lit "somi" ->
   favoriteLabel value = FavVal (VStr (lit "The Secret of Monkey Island")))
  /\ (ToString value = lit "mi2" ->
      favoriteLabel value = FavVal (VStr (lit "Monkey Island 2: LeChuck's Revenge")))
  /\ (ToString value = lit "comi" ->
      favoriteLabel value = FavVal (VStr (lit "The Curse of Monkey Island")))
  /\ (In (ToString value)
         [ lit "constructor"; lit "__defineGetter__"; lit "__defineSetter__";
           lit "hasOwnProperty"; lit "__lookupGetter__"; lit "__lookupSetter__";
           lit "isPrototypeOf"; lit "propertyIsEnumerable"; lit "toString";
           lit "valueOf"; lit "__proto__"; lit "toLocaleString" ] ->
      favoriteLabel value = FavProto (ToString value))
  /\ (~ In (ToString value) [ lit "somi"; lit "mi2"; lit "comi" ] ->
      ~ In (ToString value)
          [ lit "constructor"; lit "__defineGetter__"; lit "__defineSetter__";
            lit "hasOwnProperty"; lit "__lookupGetter__"; lit "__lookupSetter__";
            lit "isPrototypeOf"; lit "propertyIsEnumerable"; lit "toString";
            lit "valueOf"; lit "__proto__"; lit "toLocaleString" ] ->
      favoriteLabel value = FavVal (js_or value (VStr [])))
  /\ match favoriteLabel value with
     | FavVal r =>
         favoriteLabel r = FavVal r
         /\ (textual value = true -> textual r = true)
     | FavProto key => key = ToString value
     end.
Proof.
  assert (Hown : ~ In (ToString value) [ lit "somi"; lit "mi2"; lit "comi" ] ->
                 own_label (ToString value) = None).
  { intros Hno. unfold own_label.
    repeat match goal with
           | |- (if jsstring_eqb ?a ?b then _ else _) = _ =>
               let E := fresh "E" in
               destruct (jsstring_eqb a b) eqn:E;
               [ apply jsstring_eqb_eq in E; exfalso; apply Hno; rewrite E;
                 cbn [In]; tauto | ]
           end.
    reflexivity. }
  assert (Hinh : ~ In (ToString value) inherited_keys ->
                 inherited (ToString value) = false).
  { intros Hno. unfold inherited.
    destruct (existsb (jsstring_eqb (ToString value)) inherited_keys) eqn:E;
      [ | reflexivity ].
    apply existsb_exists in E. destruct E as (k & Hin & Hk).
    apply jsstring_eqb_eq in Hk. rewrite Hk in Hno. contradiction. }
  split; [ intros H; unfold favoriteLabel; rewrite H; reflexivity | ].
  split; [ intros H; unfold favoriteLabel; rewrite H; reflexivity | ].
  split; [ intros H; unfold favoriteLabel; rewrite H; reflexivity | ].
  split.
  { intros H. unfold favoriteLabel.
    repeat (destruct H as [H | H]; [ rewrite <- H; reflexivity | ]).
    destruct H. }
  split.
  { intros H1 H2. unfold favoriteLabel. rewrite (Hown H1), (Hinh H2). reflexivity. }
  unfold favoriteLabel at 1.
  destruct (own_label (ToString value)) as [ label | ] eqn:E.
  - unfold own_label in E.
    repeat match type of E with
           | (if ?c then _ else _) = _ => destruct c
           end;
      inversion E; subst; split; reflexivity.
  - destruct (inherited (ToString value)) eqn:I; [ reflexivity | ].
    assert (Hempty : favoriteLabel (VStr []) = FavVal (VStr [])) by reflexivity.
    destruct value as [ | [ | c s ] | l | ]; cbn [js_or truthy];
      (split; [ first [ exact Hempty
                      | unfold favoriteLabel; rewrite E, I; reflexivity ] | ]);
      intros Ht; first [ reflexivity | exact Ht ].
Qed.

Lemma before_query_app (u q : jsstring) :
  before_query (u ++ 63%N :: q) = before_query u.
Proof.
  induction u as [ | c u IH ]; [ reflexivity | ].
  cbn [app before_query]. rewrite IH. reflexivity.
Qed.

Lemma before_query_none (u : jsstring) :
  existsb (N.eqb 63) u = false -> before_query u = u.
Proof.
  induction u as [ | c u IH ]; intros H; [ reflexivity | ].
  cbn [existsb] in H. apply orb_false_iff in H. destruct H as [Hc Hu].
  cbn [before_query]. rewrite N.eqb_sym, Hc, (IH Hu). reflexivity.
Qed.

(** X17. The cache headers depend on the path alone: a query string never
    changes them. A response gets either none of the three headers or all
    of them, and all of them only in modem mode; there the root and every
    path that ends in [.html] get them. *)
Theorem cache_control_by_path (e : Env) (url query stem : jsstring) :
  cache_headers e (url ++ 63%N :: query) = cache_headers e url
  /\ (cache_headers e url = []
      \/ (cache_headers e url = no_cache_headers /\ MODEM_MODE e = true))
  /\ (MODEM_MODE e = true -> cache_headers e (lit "/") = no_cache_headers)
  /\ (MODEM_MODE e = true -> existsb (N.eqb 63) stem = false ->
      cache_headers e (stem ++ lit ".html") = no_cache_headers).
Proof.
  unfold cache_headers. rewrite before_query_app.
  split; [ reflexivity | ]. split.
  { destruct (MODEM_MODE e); [ | left; reflexivity ].
    destruct (jsstring_eqb (before_query url) (lit "/")
              || endsWith (before_query url) (lit ".html"));
      [ right; split; reflexivity | left; reflexivity ]. }
  split; intros Hm; rewrite Hm; [ reflexivity | ].
  intros Hs. rewrite before_query_none.
  - unfold endsWith. rewrite rev_app_distr, starts_with_app, orb_true_r. reflexivity.
  - rewrite existsb_app, Hs. reflexivity.
Qed.

Lemma esc_calm (s : jsstring) :
  forallb (fun c => negb (N.eqb c ch_amp || is_raw c)) s = true ->
  flat_map esc s = s.
Proof.
  induction s as [ | c s IH ]; intros H; [ reflexivity | ].
  cbn [forallb] in H. andb_split H Hc Hs.
  cbn [flat_map]. rewrite (IH Hs).
  apply negb_true_iff in Hc. unfold is_raw in Hc.
  apply orb_false_iff in Hc. destruct Hc as [Ha Hc].
  apply orb_false_iff in Hc. destruct Hc as [Hc Hq].
  apply orb_false_iff in Hc. destruct Hc as [Hc Hd].
  apply orb_false_iff in Hc. destruct Hc as [Hl Hg].
  unfold esc. rewrite Ha, Hl, Hg, Hd, Hq. reflexivity.
Qed.

Lemma digits_calm (s : jsstring) :
  forallb is_digit s = true ->
  forallb (fun c => negb (N.eqb c ch_amp || is_raw c)) s = true.
Proof.
  induction s as [ | c s IH ]; intros H; [ reflexivity | ].
  cbn [forallb] in *. andb_split H Hc Hs. rewrite (IH Hs), andb_true_r.
  each_digit c Hc.
Qed.

Lemma js_String_calm (z : Z) :
  forallb (fun c => negb (N.eqb c ch_amp || is_raw c)) (js_String z) = true.
Proof.
  unfold js_String. destruct (z <? 0); cbn [forallb];
    rewrite ?digits_calm by apply String_of_N_digits; reflexivity.
Qed.

Lemma padded_calm (target z : Z) :
  forallb (fun c => negb (N.eqb c ch_amp || is_raw c))
          (padStart target (lit "0") (js_String z)) = true.
Proof.
  rewrite padStart_zeros, forallb_app, js_String_calm, andb_true_r.
  induction (Z.to_nat _) as [ | j IH ]; [ reflexivity | exact IH ].
Qed.

(** X18. A date stamp needs no escaping: whatever the clock says,
    [formatDate] writes digits, signs and the fixed separators only, so
    [escapeHtml] shows the stamp on the page exactly as it was stored, and
    the stamp is never empty. *)
Theorem date_stamp_is_shown_as_stored (d : LocalTime) :
  escapeHtml (VStr (formatDate d)) = Ok (formatDate d)
  /\ truthy (VStr (formatDate d)) = true.
Proof.
  split.
  - rewrite escapeHtml_string. f_equal. apply esc_calm.
    unfold formatDate. rewrite !forallb_app, !padded_calm, !js_String_calm.
    destruct (12 <=? getHours d); reflexivity.
  - unfold formatDate.
    destruct (padStart 2 (lit "0") (js_String (getMonth d + 1))) as [ | c s ] eqn:E;
      [ | reflexivity ].
    rewrite padStart_zeros in E. apply (f_equal (@length N)) in E.
    rewrite length_app, repeat_length in E. cbn [length] in E.
    unfold js_String in E.
    pose proof (String_of_N_nonempty (Z.to_N (getMonth d + 1))) as H1.
    pose proof (String_of_N_nonempty (Z.to_N (- (getMonth d + 1)))) as H2.
    destruct (getMonth d + 1 <? 0); cbn [length] in E; lia.
Qed.

(** ** The properties above at sample inputs *)

Lemma formatCounter_shows_count_witness :
  0 <= 42 < 2 ^ 53
  /\ parseInt (VStr (formatCounter 42)) = Some 42.
Proof.
  assert (H : 0 <= 42 < 2 ^ 53) by (split; [ lia | reflexivity ]).
  split; [ exact H | ].
  exact (proj2 (proj2 (proj2 (proj2 (formatCounter_shows_count 42 H))))).
Defined.

Lemma home_page_counts_witness :
  0 <= readCounter (Some 41)
  /\ readCounter (Some 41) + 1 < 2 ^ 53
  /\ home_page index_sample (Some 41) = (lit "<b>0000042</b>", Some 42).
Proof.
  assert (H0 : 0 <= readCounter (Some 41)) by (cbn; lia).
  split; [ exact H0 | ]. split; [ reflexivity | ].
  pose (H := home_page_counts index_sample (Some 41) H0 eq_refl).
  apply injective_projections; [ reflexivity | exact (proj1 H) ].
Defined.

(** At 2^53 adding one changes nothing: the counter stays where it is. *)
Example counter_stops_at_2_53 :
  incrementCounter (Some (2 ^ 53)) = (2 ^ 53, Some (2 ^ 53))
  /\ incrementCounter (Some (2 ^ 53 - 1)) = (2 ^ 53, Some (2 ^ 53)).
Proof. split; reflexivity. Qed.

(** The favorite [__proto__] is accepted and stored as [{}], on which
    [renderEntry] throws. *)
Example proto_favorite_breaks_guestbook :
  post_sign_guestbook Buffer_from_utf8 redirect_body_text stored_label today_sample
    modem56k env_default req_proto_favorite [] (fresh 0 None)
  = Ok (res_redirect Buffer_from_utf8 redirect_body_text modem56k
          (lit "/guestbook.html")
          (modemThrottle env_default req_proto_favorite (fresh 0 None)),
        [entry_proto_favorite])
  /\ guestbook_page guestbook_sample VUndef [entry_proto_favorite] = Throw.
Proof. split; reflexivity. Qed.

Lemma visits_are_counted_witness :
  0 <= readCounter (Some 41)
  /\ readCounter (Some 41) + Z.of_nat 3 < 2 ^ 53
  /\ snd (visits index_sample 3 (Some 41)) = Some 44.
Proof.
  assert (H0 : 0 <= readCounter (Some 41)) by (cbn; lia).
  assert (Hn : 3%nat <> 0%nat) by discriminate.
  split; [ exact H0 | ]. split; [ reflexivity | ].
  exact (proj1 (proj2 (visits_are_counted index_sample 3 (Some 41) H0 eq_refl)) Hn).
Defined.

Lemma repeated_favorite_breaks_guestbook_witness :
  post_sign_guestbook Buffer_from_utf8 redirect_body_text stored_label today_sample
    modem56k env_default req_two_favorites [] (fresh 0 None)
  = Ok (res_redirect Buffer_from_utf8 redirect_body_text modem56k
          (lit "/guestbook.html")
          (modemThrottle env_default req_two_favorites (fresh 0 None)),
        [entry_two_favorites])
  /\ guestbook_page guestbook_sample (VStr (lit "2"))
       ([entry_two_favorites] ++ repeat entry_signed 10)
     = Throw.
Proof.
  split; [ reflexivity | ].
  refine (repeated_favorite_breaks_guestbook Buffer_from_utf8 redirect_body_text
            stored_label today_sample modem56k env_default req_two_favorites []
            (fresh 0 None) _ [entry_two_favorites] [lit "somi"; lit "mi2"]
            (repeat entry_signed 10) guestbook_sample (VStr (lit "2"))
            _ eq_refl eq_refl eq_refl eq_refl eq_refl eq_refl).
  intros v r H. unfold stored_label. rewrite H. reflexivity.
Defined.

Lemma submissions_keep_guestbook_rendering_witness :
  post_sign_guestbook Buffer_from_utf8 redirect_body_text stored_label today_sample
    modem56k env_default req_signed [entry_hostile] (fresh 0 None)
  = Ok (res_redirect Buffer_from_utf8 redirect_body_text modem56k
          (lit "/guestbook.html")
          (modemThrottle env_default req_signed (fresh 0 None)),
        [entry_hostile; entry_signed])
  /\ forallb renderable [entry_hostile; entry_signed] = true.
Proof.
  split; [ reflexivity | ].
  refine (proj1 (submissions_keep_guestbook_rendering Buffer_from_utf8
            redirect_body_text stored_label today_sample modem56k env_default
            req_signed [entry_hostile] (fresh 0 None) _ [entry_hostile; entry_signed]
            _ eq_refl eq_refl eq_refl eq_refl)).
  intros v r H. unfold stored_label. rewrite H. reflexivity.
Defined.

Lemma writes_are_buffered_in_order_witness :
  throttles env_default req_plain = true
  /\ chunks (buffering Buffer_from_utf8 redirect_body_text modem56k env_default
               req_plain 0 None [Str (lit "hi") None; Str [] None; Buf [x21]])
     = [[x68; x69]; [x21]].
Proof.
  split; [ reflexivity | ].
  exact (proj1 (proj2 (proj2
    (writes_are_buffered_in_order Buffer_from_utf8 redirect_body_text modem56k
       env_default req_plain 0 None [Str (lit "hi") None; Str [] None; Buf [x21]]
       None eq_refl)))).
Defined.

Lemma modem_mode_off_witness :
  truthy (env_VERCEL env_vercel) = true
  /\ modemThrottle env_vercel req_plain (fresh 0 None) = fresh 0 None
  /\ cache_headers env_vercel (lit "/index.html") = [].
Proof.
  split; [ reflexivity | ].
  pose (H := modem_mode_off Buffer_from_utf8 redirect_body_text modem56k env_vercel
               req_plain 0 None [] (lit "/index.html") (or_introl eq_refl)).
  split; [ exact (proj1 (proj2 H) (fresh 0 None)) | ].
  exact (proj2 (proj2 (proj2 (proj2 H)))).
Defined.

Lemma drip_at_any_chunk_size_witness :
  chunk (derive settings_9600) = 60
  /\ throttles env_default req_plain = true
  /\ timers (served Buffer_from_utf8 redirect_body_text (derive settings_9600)
               env_default req_plain 0 None [] (Some (Buf body900)) 15) = []
  /\ total_delay (trace (served Buffer_from_utf8 redirect_body_text
                           (derive settings_9600) env_default req_plain 0 None []
                           (Some (Buf body900)) 15))
     = 120 + 14 * 50.
Proof.
  split; [ reflexivity | ]. split; [ reflexivity | ].
  pose (H := drip_at_any_chunk_size Buffer_from_utf8 redirect_body_text
               (derive settings_9600) env_default req_plain 0 None []
               (Some (Buf body900)) eq_refl eq_refl eq_refl).
  split; [ exact (proj1 (proj2 H)) | exact (proj2 (proj2 (proj2 (proj2 H)))) ].
Defined.

Lemma same_size_same_schedule_witness :
  blen (finalized Buffer_from_utf8 (Some (Buf [x63; x64]))
          (buffering Buffer_from_utf8 redirect_body_text modem56k env_default
             req_plain 0 None []))
  = 2
  /\ map outline
       (trace (served Buffer_from_utf8 redirect_body_text modem56k env_default
                 req_plain 0 None [Buf [x61]; Buf [x62]] None 1))
     = map outline
         (trace (served Buffer_from_utf8 redirect_body_text modem56k env_default
                   req_plain 0 None [] (Some (Buf [x63; x64])) 1)).
Proof.
  split; [ reflexivity | ].
  exact (same_size_same_schedule Buffer_from_utf8 redirect_body_text modem56k
           env_default req_plain 0 None [Buf [x61]; Buf [x62]] []
           None (Some (Buf [x63; x64])) 1 eq_refl eq_refl eq_refl).
Defined.

Lemma escapeHtml_is_injective_witness :
  escapeHtml (VStr (lit "<b>")) = escapeHtml (VStr [60; 98; 62]%N)
  /\ lit "<b>" = [60; 98; 62]%N.
Proof.
  split; [ reflexivity | ].
  exact (escapeHtml_is_injective (lit "<b>") [60; 98; 62]%N eq_refl).
Defined.
